(** * auto-withdraw: the pending-transaction race engine of [main.go]

    A shallow embedding of [main.go] (package [main]): the [Config] and
    [Chain] structures, [Connect], the per-hash pipeline and event loop of
    [Chain.ScanPending], and the start-up code of [main] (configuration
    template, account loading, one monitor per endpoint).

    Conventions.
    - [*big.Int] is [Z]; [uint64] is [N] (the code performs no arithmetic on
      [uint64] values, it only converts them with [SetUint64]).
    - [common.Address] ([20]byte) and [common.Hash] are the big-endian value
      of their bytes, as [Z].
    - [*common.Address] is a pointer: [None] is [nil], [Some l] points to cell
      [l] of a heap of addresses.  Go compares pointers by identity, so the
      model keeps the cells.
    - A Go pair [(T, error)] is [T + error]; a lone [error] is [option error].
    - The node, the signer and go-ethereum's crypto are outside the
      repository: they are interfaces ([EthNode], [Signer], [Crypto]) over
      which every definition and theorem is parametric. *)

From Stdlib Require Import ZArith Lia.
From stdpp Require Import base option list gmap strings.

Local Open Scope Z_scope.

(** ** Data model *)

Abbreviation Address := Z (only parsing).
Abbreviation Hash := Z (only parsing).
Abbreviation PrivateKey := Z (only parsing).
Abbreviation error := string (only parsing).

(** [type Accounts map[common.Address]*ecdsa.PrivateKey] *)
Abbreviation Accounts := (gmap Z Z) (only parsing).

(** Heap cells holding [common.Address] values; a location is an index. *)
Abbreviation loc := nat (only parsing).
Abbreviation Heap := (list Z) (only parsing).
Abbreviation AddrPtr := (option nat) (only parsing).

(** Taking the address of a fresh [common.Address] variable holding [a]. *)
Definition new_Address (a : Address) (h : Heap) : loc * Heap :=
  (length h, h ++ [a]).

(** A transaction as the node returns it ([*types.Transaction]): its inner
    data by value, its hash and its signature values. *)
Record Transaction := mkTransaction {
  tx_to : option Address;
  tx_value : Z;
  tx_gas : N;
  tx_gasPrice : Z;
  tx_nonce : N;
  tx_hash : Hash;
  tx_sig : Z
}.

(** [types.LegacyTx] as the code fills it (the other fields keep their zero
    value). *)
Record LegacyTx := mkLegacyTx {
  To : AddrPtr;
  Value : Z;
  Gas : N;
  GasPrice : Z;
  Nonce : N
}.

(** [types.Signer], with what [types.SignNewTx] computes under it.  Signing
    reads the replacement's destination through its pointer, hence the
    heap. *)
Record Signer := mkSigner {
  Sender : Transaction -> Address + error;
  SignNewTx : PrivateKey -> Heap -> LegacyTx -> Transaction + error
}.

(** [type Chain struct]: [eth] and [geth] are two clients over one RPC
    connection, which the state of the node stands for. *)
Record Chain := mkChain {
  accounts : Accounts;
  reciever : AddrPtr;
  signer : Signer
}.

(** A slice: [None] is the [nil] slice (the zero value). *)
Abbreviation slice A := (option (list A)) (only parsing).

Definition elems {A} (s : slice A) : list A := default [] s.
Definition len {A} (s : slice A) : nat := length (elems s).

(** [type Config struct] *)
Record Config := mkConfig {
  Reciever : Address;
  Endpoints : slice string
}.

(** The zero value of [Config] ([var emtpyConfig Config]). *)
Definition emtpyConfig : Config := {| Reciever := 0; Endpoints := None |}.

(** ** The node *)

(** The RPC calls [ScanPending] makes, on a node in state [Node]. *)
Class EthNode (Node : Type) := {
  SubscribePendingTransactions : Node -> option error * Node;
  TransactionByHash : Node -> Hash -> (Transaction + error) * Node;
  SendTransaction : Node -> Transaction -> option error * Node
}.

(** ** Observable operations of a monitor *)

Inductive LogLine :=
| couldnt_get_tx (txHash : Hash) (err : error)
| couldnt_get_sender (h : Hash) (err : error)
| couldnt_sign (h : Hash) (err : error)
| couldnt_send (h : Hash) (err : error)
| replaced (h h' : Hash).

Inductive Op :=
| OpFetch (txHash : Hash)
| OpSender (tx : Transaction)
| OpLookup (from : Address)
| OpConstruct (replacementTx : LegacyTx)
| OpSign (privateKey : PrivateKey) (replacementTx : LegacyTx)
| OpSend (signedTx : Transaction)
| OpLog (l : LogLine).

(** ** [big.Int] arithmetic *)

(** [big.Int.Div]: Euclidean division (the remainder is never negative);
    [y = 0] panics in Go and is not called here. *)
Definition big_Div (x y : Z) : Z := Z.sgn y * (x / Z.abs y).
Definition big_Mul (x y : Z) : Z := x * y.
Definition big_Add (x y : Z) : Z := x + y.
Definition big_Sub (x y : Z) : Z := x - y.
Definition SetUint64 (x : N) : Z := Z.of_N x.

(** ** The monitor *)

Section Monitor.
Context {Node : Type} `{EthNode Node}.

Record World := mkWorld { heap : Heap; node : Node }.

(** State passing over the world, with the operations performed. *)
Definition M (A : Type) : Type := World -> A * list Op * World.

Definition ret {A} (a : A) : M A := fun w => (a, [], w).

Definition bind {A B} (m : M A) (k : A -> M B) : M B :=
  fun w =>
    let '(a, o1, w1) := m w in
    let '(b, o2, w2) := k a w1 in
    (b, o1 ++ o2, w2).

Definition emit (o : Op) : M unit := fun w => (tt, [o], w).

Definition log_Printf (l : LogLine) : M unit := emit (OpLog l).

(** [tx.To()]: [nil] for a contract creation, else a pointer to a fresh
    copy of the destination. *)
Definition tx_To (tx : Transaction) : M AddrPtr :=
  fun w =>
    match tx_to tx with
    | None => (None, [], w)
    | Some a =>
        let '(l, h') := new_Address a (heap w) in
        (Some l, [], {| heap := h'; node := node w |})
    end.

Definition eth_TransactionByHash (txHash : Hash) : M (Transaction + error) :=
  fun w =>
    let '(r, n') := TransactionByHash (node w) txHash in
    (r, [OpFetch txHash], {| heap := heap w; node := n' |}).

Definition eth_SendTransaction (signedTx : Transaction) : M (option error) :=
  fun w =>
    let '(r, n') := SendTransaction (node w) signedTx in
    (r, [OpSend signedTx], {| heap := heap w; node := n' |}).

Definition signer_Sender (c : Chain) (tx : Transaction) : M (Address + error) :=
  fun w => (Sender (signer c) tx, [OpSender tx], w).

Definition accounts_lookup (c : Chain) (from : Address) : M (option PrivateKey) :=
  fun w => (accounts c !! from, [OpLookup from], w).

Definition types_SignNewTx (privateKey : PrivateKey) (c : Chain)
    (replacementTx : LegacyTx) : M (Transaction + error) :=
  fun w =>
    (SignNewTx (signer c) privateKey (heap w) replacementTx,
     [OpSign privateKey replacementTx], w).

End Monitor.

Arguments World : clear implicits.
Arguments M : clear implicits.

Notation "x <- m ;; k" := (bind m (fun x => k))
  (at level 100, m at next level, right associativity).
Notation "m ;;; k" := (bind m (fun _ => k))
  (at level 100, right associativity).

Section Pipeline.
Context {Node : Type} `{EthNode Node}.

(** The replacement built at lines 86-95 for the observed [tx]. *)
Definition build_replacement (c : Chain) (tx : Transaction) : LegacyTx :=
  let gasPrice := big_Mul (big_Div (tx_gasPrice tx) (SetUint64 100)) (SetUint64 11) in
  let additionalFees := big_Mul gasPrice (SetUint64 (tx_gas tx)) in
  {| To := reciever c;
     Value := big_Sub (tx_value tx) additionalFees;
     Gas := tx_gas tx;
     GasPrice := big_Add gasPrice (tx_gasPrice tx);
     Nonce := tx_nonce tx |}.

(** The body of [case txHash := <-txChan] (lines 69-110); every
    [continue] and the end of the body return to the loop. *)
Definition process_hash (c : Chain) (txHash : Hash) : M Node unit :=
  r <- eth_TransactionByHash txHash ;;
  match r with
  | inr err => log_Printf (couldnt_get_tx txHash err)
  | inl tx =>
      to1 <- tx_To tx ;;
      match to1 with
      | None => ret tt
      | Some _ =>
          r <- signer_Sender c tx ;;
          match r with
          | inr err => log_Printf (couldnt_get_sender (tx_hash tx) err)
          | inl from =>
              found <- accounts_lookup c from ;;
              match found with
              | None => ret tt
              | Some privateKey =>
                  to2 <- tx_To tx ;;
                  if bool_decide (to2 <> reciever c) then
                    let replacementTx := build_replacement c tx in
                    emit (OpConstruct replacementTx) ;;;
                    r <- types_SignNewTx privateKey c replacementTx ;;
                    match r with
                    | inr err => log_Printf (couldnt_sign (tx_hash tx) err)
                    | inl signedTx =>
                        e <- eth_SendTransaction signedTx ;;
                        match e with
                        | Some err => log_Printf (couldnt_send (tx_hash tx) err)
                        | None => log_Printf (replaced (tx_hash tx) (tx_hash signedTx))
                        end
                    end
                  else ret tt
              end
          end
      end
  end.

(** What [select] delivers, in the order it delivers it. *)
Inductive Event :=
| SubErr (err : error)
| TxHash (txHash : Hash).

(** The [for { select { ... } }] loop over the events delivered so far:
    [Some err] when the loop has returned [err], [None] when it is
    blocked in [select] waiting for the next event. *)
Fixpoint event_loop (c : Chain) (evs : list Event) : M Node (option error) :=
  match evs with
  | [] => ret None
  | SubErr err :: _ => ret (Some err)
  | TxHash txHash :: evs' => process_hash c txHash ;;; event_loop c evs'
  end.

(** [func (c *Chain) ScanPending() error] *)
Definition ScanPending (c : Chain) (evs : list Event) : M Node (option error) :=
  fun w =>
    let '(e, n') := SubscribePendingTransactions (node w) in
    let w' := {| heap := heap w; node := n' |} in
    match e with
    | Some err => (Some err, [], w')
    | None => event_loop c evs w'
    end.

End Pipeline.

(** ** Start-up: [Connect] and [main] *)

(** What go-ethereum computes without the network: key parsing, address
    derivation ([crypto.PubkeyToAddress(privateKey.PublicKey)]) and the
    signer of a chain identifier. *)
Class Crypto := {
  HexToECDSA : string -> PrivateKey + error;
  PubkeyToAddress : PrivateKey -> Address;
  NewLondonSigner : Z -> Signer
}.

(** What an endpoint answers when it is dialled and asked its chain
    identifier. *)
Class Network := {
  rpc_Dial : string -> option error;
  eth_ChainID : string -> Z + error
}.

(** A JSON document, as [encoding/json] writes it. *)
#[warnings="-register-all"]
Inductive JSON :=
| JNull
| JString (s : string)
| JArray (l : list JSON)
| JObject (fields : list (string * JSON)).

Definition hex_digit (d : Z) : Ascii.ascii :=
  Ascii.ascii_of_N (Z.to_N (if d <? 10 then 48 + d else 87 + d)).

(** The low [n] hexadecimal digits of [v], most significant first. *)
Fixpoint hex_fixed (n : nat) (v : Z) : string :=
  match n with
  | O => EmptyString
  | S n' => String.append (hex_fixed n' (v / 16)) (String (hex_digit (v mod 16)) EmptyString)
  end.

(** [common.Address.MarshalText]: [0x] and the 20 bytes in hexadecimal. *)
Definition Address_MarshalText (a : Address) : string :=
  String.append "0x" (hex_fixed 40 a).

(** [json.Marshal] of a [Config]: the field names are the struct tags, and a
    [nil] slice is written as [null]. *)
Definition json_Config (c : Config) : JSON :=
  JObject
    [("reciever"%string, JString (Address_MarshalText (Reciever c)));
     ("endpoints"%string,
      match Endpoints c with
      | None => JNull
      | Some l => JArray (map JString l)
      end)].

Inductive OpenError :=
| ErrNotExist
| ErrOther (err : error).

(** The files [main] touches: what [os.Open] of [config.json] gives (and
    what [Decode] makes of its content), whether [os.Create] and [Encode]
    succeed, and the lines the scanner reads from [accounts.txt]. *)
Record Files := mkFiles {
  open_config : (Config + error) + OpenError;
  create_config : option error;
  encode_config : option error;
  open_accounts : list string + error
}.

Inductive StartLine :=
| config_not_found
| loading_accounts
| couldnt_convert (text : string) (err : error)
| loaded_accounts (n : nat)
| parsing_endpoints
| couldnt_connect (endpoint : string) (err : error).

Inductive FatalLine :=
| couldnt_create_config (err : error)
| couldnt_encode_config (err : error)
| empty_config_created
| unknown_error_reading (err : error)
| unknown_error_decoding (err : error)
| error_reading_accounts (err : error).

Inductive StartOp :=
| SPrint (l : StartLine)
| SCreate (name : string)
| SEncode (name : string) (doc : JSON)
| SDial (endpoint : string)
| SChainID (endpoint : string)
| SGo (endpoint : string) (c : Chain).

(** How [main] ends: [log.Fatal] exits the process; otherwise it waits for
    the monitors it has started. *)
Inductive Outcome :=
| Fatal (l : FatalLine)
| Waiting (monitors : list (string * Chain)).

(** [strings.TrimPrefix] *)
Definition TrimPrefix (s prefix : string) : string :=
  if String.prefix prefix s
  then String.substring (String.length prefix)
         (String.length s - String.length prefix)%nat s
  else s.

Section Startup.
Context `{Crypto} `{Network}.

(** [func Connect]: [reciver] is a variable of the call, whose address the
    chain keeps. *)
Definition Connect (endpoint : string) (reciver : Address) (accounts : Accounts)
    (h : Heap) : (Chain + error) * list StartOp * Heap :=
  let '(l, h') := new_Address reciver h in
  match rpc_Dial endpoint with
  | Some err => (inr err, [SDial endpoint], h')
  | None =>
      match eth_ChainID endpoint with
      | inr err => (inr err, [SDial endpoint; SChainID endpoint], h')
      | inl chainId =>
          (inl {| accounts := accounts; reciever := Some l;
                  signer := NewLondonSigner chainId |},
           [SDial endpoint; SChainID endpoint], h')
      end
  end.

(** The [for accountsScanner.Scan()] loop (lines 154-161) over the lines
    of the file. *)
Fixpoint load_accounts (lines : list string) (accounts : Accounts)
    : Accounts * list StartOp :=
  match lines with
  | [] => (accounts, [])
  | text :: rest =>
      match HexToECDSA (TrimPrefix text "0x") with
      | inr err =>
          let '(a, o) := load_accounts rest accounts in
          (a, SPrint (couldnt_convert text err) :: o)
      | inl privateKey =>
          load_accounts rest (<[PubkeyToAddress privateKey := privateKey]> accounts)
      end
  end.

(** The [for _, endpoint := range config.Endpoints] loop (lines 168-181):
    the monitors started, in order. *)
Fixpoint start_monitors (endpoints : list string) (reciever : Address)
    (accounts : Accounts) (h : Heap)
    : list (string * Chain) * list StartOp * Heap :=
  match endpoints with
  | [] => ([], [], h)
  | endpoint :: rest =>
      let '(r, o1, h1) := Connect endpoint reciever accounts h in
      match r with
      | inr err =>
          let '(ms, o2, h2) := start_monitors rest reciever accounts h1 in
          (ms, o1 ++ SPrint (couldnt_connect endpoint err) :: o2, h2)
      | inl chain =>
          let '(ms, o2, h2) := start_monitors rest reciever accounts h1 in
          ((endpoint, chain) :: ms, o1 ++ SGo endpoint chain :: o2, h2)
      end
  end.

(** [func main], up to [wg.Wait()]. *)
Definition main (fs : Files) : Outcome * list StartOp * Heap :=
  match open_config fs with
  | inr ErrNotExist =>
      match create_config fs with
      | Some err =>
          (Fatal (couldnt_create_config err),
           [SPrint config_not_found; SCreate "config.json"], [])
      | None =>
          match encode_config fs with
          | Some err =>
              (Fatal (couldnt_encode_config err),
               [SPrint config_not_found; SCreate "config.json"], [])
          | None =>
              (Fatal empty_config_created,
               [SPrint config_not_found; SCreate "config.json";
                SEncode "config.json" (json_Config emtpyConfig)], [])
          end
      end
  | inr (ErrOther err) => (Fatal (unknown_error_reading err), [], [])
  | inl (inr err) => (Fatal (unknown_error_decoding err), [], [])
  | inl (inl config) =>
      match open_accounts fs with
      | inr err =>
          (Fatal (error_reading_accounts err), [SPrint loading_accounts], [])
      | inl lines =>
          let '(accounts, o1) := load_accounts lines ∅ in
          let '(ms, o2, h) :=
            start_monitors (elems (Endpoints config)) (Reciever config) accounts [] in
          (Waiting ms,
           SPrint loading_accounts :: o1 ++
           SPrint (loaded_accounts (size accounts)) :: SPrint parsing_endpoints :: o2,
           h)
      end
  end.

End Startup.

(** ** Reading a run *)

(** What a pointer points to. *)
Definition deref (h : Heap) (p : AddrPtr) : option Address :=
  match p with
  | None => None
  | Some l => h !! l
  end.

Definition constructed (ops : list Op) : list LegacyTx :=
  omap (fun o => match o with OpConstruct r => Some r | _ => None end) ops.

Definition signed (ops : list Op) : list (PrivateKey * LegacyTx) :=
  omap (fun o => match o with OpSign k r => Some (k, r) | _ => None end) ops.

Definition sent (ops : list Op) : list Transaction :=
  omap (fun o => match o with OpSend s => Some s | _ => None end) ops.

Definition fetched (ops : list Op) : list Hash :=
  omap (fun o => match o with OpFetch h => Some h | _ => None end) ops.

Definition recovered (ops : list Op) : list Transaction :=
  omap (fun o => match o with OpSender tx => Some tx | _ => None end) ops.

Definition looked_up (ops : list Op) : list Address :=
  omap (fun o => match o with OpLookup a => Some a | _ => None end) ops.

Definition dialled (ops : list StartOp) : list string :=
  omap (fun o => match o with SDial e => Some e | _ => None end) ops.

Definition started (ops : list StartOp) : list (string * Chain) :=
  omap (fun o => match o with SGo e c => Some (e, c) | _ => None end) ops.

Definition encoded (ops : list StartOp) : list (string * JSON) :=
  omap (fun o => match o with SEncode n d => Some (n, d) | _ => None end) ops.

(** The operations after signing, as lines 97-109 perform them. *)
Definition after_sign {Node} `{EthNode Node} (tx : Transaction)
    (r : Transaction + error) (n : Node) : list Op :=
  match r with
  | inr err => [OpLog (couldnt_sign (tx_hash tx) err)]
  | inl signedTx =>
      [OpSend signedTx;
       OpLog (match fst (SendTransaction n signedTx) with
              | Some err => couldnt_send (tx_hash tx) err
              | None => replaced (tx_hash tx) (tx_hash signedTx)
              end)]
  end.

(** The three components of a run. *)
Definition result_of {Node A} (r : A * list Op * World Node) : A := r.1.1.
Definition ops_of {Node A} (r : A * list Op * World Node) : list Op := r.1.2.
Definition world_of {Node A} (r : A * list Op * World Node) : World Node := r.2.

(** The node answers [txHash] with [tx]. *)
Definition observed {Node} `{EthNode Node} (w : World Node) (txHash : Hash)
    (tx : Transaction) : Prop :=
  (TransactionByHash (node w) txHash).1 = inl tx.

(** [tx] is accepted for replacement: it is observed, has a destination,
    its sender [from] is recovered and is in the registry with [privateKey].
    The receiver's cell is allocated, as it is in any chain [Connect]
    returns. *)
Definition accepted {Node} `{EthNode Node} (c : Chain) (w : World Node)
    (txHash : Hash) (tx : Transaction) (from : Address) (privateKey : PrivateKey)
    : Prop :=
  observed w txHash tx /\
  is_Some (tx_to tx) /\
  Sender (signer c) tx = inl from /\
  accounts c !! from = Some privateKey /\
  is_Some (deref (heap w) (reciever c)).

(** ** A concrete node, signer and key parser

    Small instances of the three interfaces, on which the theorems below are
    run: a node serving a pool of transactions, a signer whose signature
    value is the signing address, and a key parser with the checks of
    [crypto.HexToECDSA] (64 hexadecimal digits, a scalar in the range of the
    curve). *)
Module Scenario.

Definition Pool := list Transaction.

Definition pool_lookup (n : Pool) (h : Hash) : Transaction + error :=
  match List.find (fun tx => tx_hash tx =? h) n with
  | Some tx => inl tx
  | None => inr "not found"%string
  end.

#[global] Instance pool_node : EthNode Pool := {|
  SubscribePendingTransactions n := (None, n);
  TransactionByHash n h := (pool_lookup n h, n);
  SendTransaction n s :=
    if tx_value s <? 0 then (Some "negative value"%string, n) else (None, n ++ [s])
|}.

Definition address_of_key (k : PrivateKey) : Address := k mod 2 ^ 160.

Definition value_signer (chainId : Z) : Signer := {|
  Sender tx :=
    if tx_sig tx =? 0 then inr "invalid signature"%string else inl (tx_sig tx);
  SignNewTx k h r :=
    inl {| tx_to := deref h (To r); tx_value := Value r; tx_gas := Gas r;
           tx_gasPrice := GasPrice r; tx_nonce := Nonce r;
           tx_hash := chainId + k + Z.of_N (Nonce r);
           tx_sig := address_of_key k |}
|}.

Definition hex_value (c : Ascii.ascii) : option Z :=
  let n := Z.of_N (Ascii.N_of_ascii c) in
  if (48 <=? n) && (n <=? 57) then Some (n - 48)
  else if (97 <=? n) && (n <=? 102) then Some (n - 87)
  else if (65 <=? n) && (n <=? 70) then Some (n - 55)
  else None.

Fixpoint hex_number (s : string) (acc : Z) : option Z :=
  match s with
  | EmptyString => Some acc
  | String c s' =>
      match hex_value c with
      | None => None
      | Some d => hex_number s' (16 * acc + d)
      end
  end.

Definition secp256k1N : Z :=
  0xFFFFFFFFFFFFFFFFFFFFFFFFFFFFFFFEBAAEDCE6AF48A03BBFD25E8CD0364141.

Definition parse_key (hexkey : string) : PrivateKey + error :=
  match hex_number hexkey 0 with
  | None => inr "invalid hex character in private key"%string
  | Some d =>
      if Nat.odd (String.length hexkey)
      then inr "invalid hex data for private key"%string
      else if negb (String.length hexkey =? 64)%nat
      then inr "invalid length, need 256 bits"%string
      else if secp256k1N <=? d then inr "invalid private key, >=N"%string
      else if d <=? 0 then inr "invalid private key, zero or negative"%string
      else inl d
  end.

Definition crypto : Crypto := {|
  HexToECDSA := parse_key;
  PubkeyToAddress := address_of_key;
  NewLondonSigner := value_signer
|}.

(** The receiver [R], a controlled key [kX] with its address [X], and a
    foreign destination [Y]. *)
Definition R : Address := 0xAA.
Definition kX : PrivateKey := 0x1234.
Definition X : Address := address_of_key kX.
Definition Y : Address := 0xBB.

Definition chain : Chain :=
  {| accounts := {[X := kX]}; reciever := Some 0%nat; signer := value_signer 1 |}.

(** Transactions signed by [X]: to [Y] (the scenario of the
    specification), to the receiver itself, with a low gas price, with a
    value below the added fees; one from a foreign sender and one contract
    creation; one whose signature does not recover. *)
Definition tx_Y : Transaction :=
  {| tx_to := Some Y; tx_value := 1000000; tx_gas := 21000; tx_gasPrice := 100;
     tx_nonce := 5; tx_hash := 1; tx_sig := X |}.
Definition tx_R : Transaction :=
  {| tx_to := Some R; tx_value := 1000000; tx_gas := 21000; tx_gasPrice := 100;
     tx_nonce := 5; tx_hash := 2; tx_sig := X |}.
Definition tx_cheap : Transaction :=
  {| tx_to := Some Y; tx_value := 1000000; tx_gas := 21000; tx_gasPrice := 99;
     tx_nonce := 6; tx_hash := 3; tx_sig := X |}.
Definition tx_poor : Transaction :=
  {| tx_to := Some Y; tx_value := 0; tx_gas := 21000; tx_gasPrice := 100;
     tx_nonce := 7; tx_hash := 4; tx_sig := X |}.
Definition tx_foreign : Transaction :=
  {| tx_to := Some Y; tx_value := 1000000; tx_gas := 21000; tx_gasPrice := 100;
     tx_nonce := 1; tx_hash := 5; tx_sig := 0xCC |}.
Definition tx_create : Transaction :=
  {| tx_to := None; tx_value := 0; tx_gas := 21000; tx_gasPrice := 100;
     tx_nonce := 8; tx_hash := 6; tx_sig := X |}.

Definition tx_forged : Transaction :=
  {| tx_to := Some Y; tx_value := 1000000; tx_gas := 21000; tx_gasPrice := 100;
     tx_nonce := 9; tx_hash := 7; tx_sig := 0 |}.

Definition pool : Pool :=
  [tx_Y; tx_R; tx_cheap; tx_poor; tx_foreign; tx_create; tx_forged].

(** The world right after [Connect]: the receiver in cell 0. *)
Definition world : World Pool := {| heap := [R]; node := pool |}.

Definition good_key : string :=
  "4c0883a69102937d6231471b5dbb6204fe5129617082792ae468d01a3f362318".

Definition lines : list string := ["not-a-key"%string; good_key].

Definition no_config : Files :=
  {| open_config := inr ErrNotExist; create_config := None;
     encode_config := None; open_accounts := inl lines |}.

Definition network : Network := {|
  rpc_Dial _ := None;
  eth_ChainID _ := inl 1
|}.

End Scenario.

(** ** Reading a start-up and a feed *)

Definition logged (ops : list Op) : list LogLine :=
  omap (fun o => match o with OpLog l => Some l | _ => None end) ops.

Definition printed (ops : list StartOp) : list StartLine :=
  omap (fun o => match o with SPrint l => Some l | _ => None end) ops.

Definition created (ops : list StartOp) : list string :=
  omap (fun o => match o with SCreate n => Some n | _ => None end) ops.

Definition queried (ops : list StartOp) : list string :=
  omap (fun o => match o with SChainID e => Some e | _ => None end) ops.

(** The replacement hashes of the [replaced ... with ...] lines. *)
Definition superseded (ops : list Op) : list Hash :=
  omap (fun o => match o with OpLog (replaced _ h') => Some h' | _ => None end) ops.

(** The endpoint accepts the connection. *)
Definition dials `{Network} (endpoint : string) : bool :=
  match rpc_Dial endpoint with
  | Some _ => false
  | None => true
  end.

(** [Connect] to the endpoint succeeds: it accepts the connection and
    answers its chain identifier. *)
Definition connects `{Network} (endpoint : string) : bool :=
  match rpc_Dial endpoint with
  | Some _ => false
  | None =>
      match eth_ChainID endpoint with
      | inl _ => true
      | inr _ => false
      end
  end.


(** The warning [main] prints for a line, if any. *)
Definition warning `{Crypto} (text : string) : option StartLine :=
  match HexToECDSA (TrimPrefix text "0x") with
  | inl _ => None
  | inr err => Some (couldnt_convert text err)
  end.

(** The first subscription error among the events delivered. *)
Fixpoint first_error (evs : list Event) : option error :=
  match evs with
  | [] => None
  | SubErr err :: _ => Some err
  | TxHash _ :: evs' => first_error evs'
  end.

(** The events up to the first subscription error: those the loop
    consumes. *)
Fixpoint consumed (evs : list Event) : list Hash :=
  match evs with
  | [] => []
  | SubErr _ :: _ => []
  | TxHash h :: evs' => h :: consumed evs'
  end.

(** ** Endpoints that fail

    A network on which one endpoint refuses the connection and another
    does not answer its chain identifier. *)
Module Outage.

Definition network : Network := {|
  rpc_Dial e :=
    if String.eqb e "ws://down" then Some "connection refused"%string else None;
  eth_ChainID e :=
    if String.eqb e "ws://mute" then inr "timeout"%string else inl 1
|}.

Definition config : Config :=
  {| Reciever := Scenario.R;
     Endpoints := Some ["ws://a"; "ws://down"; "ws://mute"; "ws://b"]%string |}.

Definition files : Files :=
  {| open_config := inl (inl config); create_config := None;
     encode_config := None; open_accounts := inl Scenario.lines |}.

End Outage.

(** ** A transfer at a market price

    One ether sent by [X] at a gas price of 30 gwei. *)
Module Market.

Definition tx_gwei : Transaction :=
  {| tx_to := Some Scenario.Y; tx_value := 1000000000000000000; tx_gas := 21000;
     tx_gasPrice := 30000000000; tx_nonce := 12; tx_hash := 8;
     tx_sig := Scenario.X |}.

Definition world : World Scenario.Pool := {| heap := [Scenario.R]; node := [tx_gwei] |}.

End Market.

(** ** The scanner over [accounts.txt]

    [main] reads the file through [bufio.NewScanner] with the default split
    function ([bufio.ScanLines]) and the default buffer, and never reads
    [accountsScanner.Err()]. *)

Definition newline : Ascii.ascii := Ascii.ascii_of_N 10.
Definition carriage_return : Ascii.ascii := Ascii.ascii_of_N 13.

(** [bufio.MaxScanTokenSize = 64 * 1024]: the size the buffer grows to. *)
Definition MaxScanTokenSize : N := 64 * 1024.

(** The content cut at each newline; what follows the last newline is a
    line when it is not empty. *)
Fixpoint cut_lines (data : string) : list string :=
  match data with
  | EmptyString => []
  | String ch rest =>
      if Ascii.eqb ch newline then EmptyString :: cut_lines rest
      else match cut_lines rest with
           | [] => [String ch EmptyString]
           | l :: ls => String ch l :: ls
           end
  end.

(** [dropCR]: a line loses one trailing carriage return. *)
Fixpoint dropCR (s : string) : string :=
  match s with
  | EmptyString => EmptyString
  | String ch rest =>
      match rest with
      | EmptyString => if Ascii.eqb ch carriage_return then EmptyString else s
      | String _ _ => String ch (dropCR rest)
      end
  end.

(** The line fits the buffer together with its newline. *)
Definition fits (l : string) : bool :=
  (N.of_nat (String.length l) <? MaxScanTokenSize)%N.

(** The tokens [Scan] delivers: the lines in order, up to the first one
    that does not fit the buffer; there [Scan] returns [false] for good
    (with [ErrTooLong], which nothing reads). *)
Fixpoint delivered (lines : list string) : list string :=
  match lines with
  | [] => []
  | l :: rest => if fits l then dropCR l :: delivered rest else []
  end.

(** The successive values of [accountsScanner.Text()] on a file of the
    given content. *)
Definition Scanner_lines (content : string) : list string :=
  delivered (cut_lines content).

(** A line followed by its newline and the rest of the file. *)
Fixpoint line_then (l rest : string) : string :=
  match l with
  | EmptyString => String newline rest
  | String ch l' => String ch (line_then l' rest)
  end.



(** The field of a JSON object. *)
Definition json_field (name : string) (doc : JSON) : option JSON :=
  match doc with
  | JObject fields =>
      match List.find (fun f => String.eqb f.1 name) fields with
      | Some f => Some f.2
      | None => None
      end
  | _ => None
  end.

(** ** A line that does not fit

    A line of 70000 characters, none of them a hexadecimal digit. *)
Module Overlong.


End Overlong.

(** * Properties *)

(** ** Arithmetic and heap lemmas *)

Lemma big_Div_100 (g : Z) : big_Div g (SetUint64 100) = g / 100.
Proof.
  unfold big_Div, SetUint64.
  change (Z.of_N 100) with 100. change (Z.sgn 100) with 1.
  change (Z.abs 100) with 100. lia.
Qed.

Lemma bump_formula (g : Z) :
  big_Mul (big_Div g (SetUint64 100)) (SetUint64 11) = g / 100 * 11.
Proof. rewrite big_Div_100. reflexivity. Qed.

Lemma floor_is_truncation (g : Z) : 0 <= g -> g / 100 = g ÷ 100.
Proof. intros Hg. symmetry. apply Z.quot_div_nonneg; lia. Qed.

Lemma deref_app (h h' : Heap) (p : AddrPtr) (a : Address) :
  deref h p = Some a -> deref (h ++ h') p = Some a.
Proof.
  destruct p as [l|]; simpl; [|discriminate].
  intros Hl. apply lookup_app_l_Some. exact Hl.
Qed.

Lemma deref_allocated (h : Heap) (p : AddrPtr) (k : nat) :
  is_Some (deref h p) -> p <> Some (length h + k)%nat.
Proof.
  intros [a Ha] ->. simpl in Ha. apply lookup_lt_Some in Ha. lia.
Qed.

(** ** The pipeline, path by path *)

Section PipelineFacts.
Context {Node : Type} `{EthNode Node}.
Implicit Types (c : Chain) (w : World Node) (tx : Transaction).

(** A fetch that fails is logged and nothing else happens. *)
Lemma process_hash_fetch_failed c w txHash err n1 :
  TransactionByHash (node w) txHash = (inr err, n1) ->
  process_hash c txHash w =
    (tt, [OpFetch txHash; OpLog (couldnt_get_tx txHash err)],
     {| heap := heap w; node := n1 |}).
Proof.
  intros Hf. unfold process_hash, bind, eth_TransactionByHash.
  rewrite Hf. reflexivity.
Qed.

(** A contract creation is dropped right after the fetch. *)
Lemma process_hash_no_destination c w txHash tx n1 :
  TransactionByHash (node w) txHash = (inl tx, n1) ->
  tx_to tx = None ->
  process_hash c txHash w =
    (tt, [OpFetch txHash], {| heap := heap w; node := n1 |}).
Proof.
  intros Hf Hto. unfold process_hash, bind, eth_TransactionByHash, tx_To.
  rewrite Hf. simpl. rewrite Hto. reflexivity.
Qed.

(** A sender that cannot be recovered is logged. *)
Lemma process_hash_sender_failed c w txHash tx n1 d err :
  TransactionByHash (node w) txHash = (inl tx, n1) ->
  tx_to tx = Some d ->
  Sender (signer c) tx = inr err ->
  process_hash c txHash w =
    (tt, [OpFetch txHash; OpSender tx; OpLog (couldnt_get_sender (tx_hash tx) err)],
     {| heap := heap w ++ [d]; node := n1 |}).
Proof.
  intros Hf Hto Hs.
  unfold process_hash, bind, eth_TransactionByHash, tx_To, signer_Sender.
  rewrite Hf. simpl. rewrite Hto. simpl. rewrite Hs. reflexivity.
Qed.

(** A sender outside the registry ends the processing at the lookup. *)
Lemma process_hash_not_controlled c w txHash tx n1 d from :
  TransactionByHash (node w) txHash = (inl tx, n1) ->
  tx_to tx = Some d ->
  Sender (signer c) tx = inl from ->
  accounts c !! from = None ->
  process_hash c txHash w =
    (tt, [OpFetch txHash; OpSender tx; OpLookup from],
     {| heap := heap w ++ [d]; node := n1 |}).
Proof.
  intros Hf Hto Hs Ha.
  unfold process_hash, bind, eth_TransactionByHash, tx_To, signer_Sender,
    accounts_lookup.
  rewrite Hf. simpl. rewrite Hto. simpl. rewrite Hs. simpl. rewrite Ha.
  reflexivity.
Qed.

(** A controlled sender with a destination: whatever the destination is,
    the pointer [tx.To()] returns is a fresh one, so the test of line 85
    passes and the replacement is built and signed. *)
Lemma process_hash_controlled c w txHash tx n1 d from privateKey :
  TransactionByHash (node w) txHash = (inl tx, n1) ->
  tx_to tx = Some d ->
  Sender (signer c) tx = inl from ->
  accounts c !! from = Some privateKey ->
  is_Some (deref (heap w) (reciever c)) ->
  exists w',
    heap w' = heap w ++ [d; d] /\
    process_hash c txHash w =
      (tt,
       OpFetch txHash :: OpSender tx :: OpLookup from ::
       OpConstruct (build_replacement c tx) ::
       OpSign privateKey (build_replacement c tx) ::
       after_sign tx
         (SignNewTx (signer c) privateKey (heap w ++ [d; d]) (build_replacement c tx))
         n1,
       w').
Proof.
  intros Hf Hto Hs Ha Hr.
  unfold process_hash, bind, eth_TransactionByHash, tx_To, signer_Sender,
    accounts_lookup, types_SignNewTx, eth_SendTransaction, emit, log_Printf.
  rewrite Hf. simpl. rewrite Hto. simpl. rewrite Hs. simpl. rewrite Ha.
  simpl.
  rewrite bool_decide_eq_true_2.
  2:{ intros Heq. apply (deref_allocated _ _ 1) in Hr.
      apply Hr. rewrite <- Heq. f_equal. rewrite length_app. simpl. lia. }
  simpl. rewrite <- app_assoc. simpl.
  destruct (SignNewTx (signer c) privateKey (heap w ++ [d; d])
              (build_replacement c tx)) as [signedTx|err]; simpl.
  - destruct (SendTransaction n1 signedTx) as [[err|] n2]; simpl;
      eexists; split; [|reflexivity| |reflexivity]; reflexivity.
  - eexists; split; [|reflexivity]; reflexivity.
Qed.

End PipelineFacts.

(** ** Accepted transactions *)

Section Accepted.
Context {Node : Type} `{EthNode Node}.
Implicit Types (c : Chain) (w : World Node) (tx : Transaction).

Lemma constructed_after_sign tx r (n : Node) : constructed (after_sign tx r n) = [].
Proof. destruct r; reflexivity. Qed.

Lemma signed_after_sign tx r (n : Node) : signed (after_sign tx r n) = [].
Proof. destruct r; reflexivity. Qed.

Lemma sent_after_sign tx r (n : Node) :
  sent (after_sign tx r n) = match r with inl signedTx => [signedTx] | inr _ => [] end.
Proof. destruct r; reflexivity. Qed.

(** The run of an accepted transaction: one replacement, built by
    [build_replacement], signed with the sender's key, and broadcast when
    signing succeeds. *)
Lemma accepted_run c w txHash tx from privateKey :
  accepted c w txHash tx from privateKey ->
  let run := process_hash c txHash w in
  let r := build_replacement c tx in
  constructed (ops_of run) = [r] /\
  signed (ops_of run) = [(privateKey, r)] /\
  sent (ops_of run) =
    match SignNewTx (signer c) privateKey (heap (world_of run)) r with
    | inl signedTx => [signedTx]
    | inr _ => []
    end /\
  exists d, tx_to tx = Some d /\ heap (world_of run) = heap w ++ [d; d].
Proof.
  intros (Hobs & [d Hto] & Hs & Ha & Hr). unfold observed in Hobs.
  destruct (TransactionByHash (node w) txHash) as [r1 n1] eqn:Hf.
  simpl in Hobs. subst r1.
  destruct (process_hash_controlled c w txHash tx n1 d from privateKey
              Hf Hto Hs Ha Hr) as (w' & Hh & Hrun).
  simpl. rewrite Hrun. unfold ops_of, world_of. simpl.
  rewrite constructed_after_sign, signed_after_sign, sent_after_sign, Hh.
  repeat split. exists d. split; [exact Hto|reflexivity].
Qed.

End Accepted.

(** ** The replacement of an accepted transaction *)

Section Replacement.
Context {Node : Type} `{EthNode Node}.
Implicit Types (c : Chain) (w : World Node) (tx : Transaction).

(** C2. For every transaction accepted for replacement with observed gas
    price [g], the one replacement constructed has gas price
    [g + floor(g/100) * 11] exactly; the division of [big.Int] by 100 is the
    floor, which for a gas price (never negative) is the truncating
    quotient. *)
Theorem replacement_gas_price c w txHash tx from privateKey :
  accepted c w txHash tx from privateKey ->
  let g := tx_gasPrice tx in
  let ops := ops_of (process_hash c txHash w) in
  map GasPrice (constructed ops) = [g + g / 100 * 11] /\
  (0 <= g -> map GasPrice (constructed ops) = [g + g ÷ 100 * 11]).
Proof.
  intros Hacc g ops.
  destruct (accepted_run c w txHash tx from privateKey Hacc) as (Hc & _).
  assert (Hg : map GasPrice (constructed ops) = [g + g / 100 * 11]).
  { subst ops. rewrite Hc. simpl. unfold big_Add. rewrite bump_formula.
    f_equal. subst g. lia. }
  split; [exact Hg|].
  intros Hpos. rewrite Hg, (floor_is_truncation g Hpos). reflexivity.
Qed.

(** C3. For every transaction accepted for replacement with gas price [g],
    gas limit [l] and value [v], the replacement's value is
    [v - (floor(g/100) * 11) * l] exactly.  Nothing tests its sign: the
    replacement is handed to the signer with the sender's key whatever the
    value, and whenever signing succeeds the signed transaction is
    broadcast. *)
Theorem replacement_value_unguarded c w txHash tx from privateKey :
  accepted c w txHash tx from privateKey ->
  let g := tx_gasPrice tx in
  let l := Z.of_N (tx_gas tx) in
  let v := tx_value tx in
  let run := process_hash c txHash w in
  exists r,
    constructed (ops_of run) = [r] /\
    Value r = v - (g / 100 * 11) * l /\
    signed (ops_of run) = [(privateKey, r)] /\
    forall signedTx,
      SignNewTx (signer c) privateKey (heap (world_of run)) r = inl signedTx ->
      sent (ops_of run) = [signedTx].
Proof.
  intros Hacc g l v run.
  destruct (accepted_run c w txHash tx from privateKey Hacc)
    as (Hc & Hs & Hb & _).
  exists (build_replacement c tx). repeat split; try assumption.
  - simpl. unfold big_Sub, big_Mul at 1. rewrite bump_formula. reflexivity.
  - intros signedTx Hsig. subst run. rewrite Hb, Hsig. reflexivity.
Qed.

(** C4. For every transaction accepted for replacement, the replacement
    has the nonce and the gas limit of the observed transaction, and its
    destination pointer is the chain's receiver pointer, which points to
    the configured receiver address [R]. *)
Theorem replacement_nonce_gas_destination c w txHash tx from privateKey R :
  accepted c w txHash tx from privateKey ->
  deref (heap w) (reciever c) = Some R ->
  let run := process_hash c txHash w in
  exists r,
    constructed (ops_of run) = [r] /\
    Nonce r = tx_nonce tx /\
    Gas r = tx_gas tx /\
    To r = reciever c /\
    deref (heap (world_of run)) (To r) = Some R.
Proof.
  intros Hacc HR run.
  destruct (accepted_run c w txHash tx from privateKey Hacc)
    as (Hc & _ & _ & d & _ & Hh).
  exists (build_replacement c tx). repeat split; try assumption.
  subst run. rewrite Hh. simpl. apply deref_app. exact HR.
Qed.

(** C10. For every transaction accepted for replacement whose gas price
    [g] is below 100 (and, being a gas price, not negative), the fee bump
    is 0: the replacement has gas price [g] and the observed value. *)
Theorem low_gas_price_no_bump c w txHash tx from privateKey :
  accepted c w txHash tx from privateKey ->
  0 <= tx_gasPrice tx < 100 ->
  big_Mul (big_Div (tx_gasPrice tx) (SetUint64 100)) (SetUint64 11) = 0 /\
  exists r,
    constructed (ops_of (process_hash c txHash w)) = [r] /\
    GasPrice r = tx_gasPrice tx /\
    Value r = tx_value tx.
Proof.
  intros Hacc Hg.
  destruct (accepted_run c w txHash tx from privateKey Hacc) as (Hc & _).
  assert (Hb : big_Mul (big_Div (tx_gasPrice tx) (SetUint64 100)) (SetUint64 11) = 0).
  { rewrite bump_formula, Z.div_small by exact Hg. reflexivity. }
  split; [exact Hb|].
  exists (build_replacement c tx). split; [exact Hc|].
  unfold build_replacement. cbn [GasPrice Value]. rewrite Hb.
  unfold big_Add, big_Sub, big_Mul. split; lia.
Qed.

End Replacement.

(** The scenario of the specification: sender [X], destination [Y], nonce 5,
    gas limit 21000, gas price 100, value 1,000,000. *)
Lemma scenario_accepted :
  accepted Scenario.chain Scenario.world 1 Scenario.tx_Y Scenario.X Scenario.kX.
Proof.
  repeat split; try (vm_compute; reflexivity); vm_compute; eauto.
Defined.

Lemma replacement_gas_price_witness :
  let ops := ops_of (process_hash Scenario.chain 1 Scenario.world) in
  map GasPrice (constructed ops) = [111] /\
  map GasPrice (constructed ops) = [100 + 100 ÷ 100 * 11].
Proof.
  destruct (replacement_gas_price Scenario.chain Scenario.world 1 Scenario.tx_Y
              Scenario.X Scenario.kX scenario_accepted) as [Hfloor Htrunc].
  split; [exact Hfloor|]. apply Htrunc. vm_compute. discriminate.
Defined.

(** A transaction of [X] whose value (0) is below the added fees. *)
Lemma poor_accepted :
  accepted Scenario.chain Scenario.world 4 Scenario.tx_poor Scenario.X Scenario.kX.
Proof.
  repeat split; try (vm_compute; reflexivity); vm_compute; eauto.
Defined.

(** The replacement of [tx_poor] has value [0 - 11 * 21000 = -231000]; it is
    signed and handed to the node all the same. *)
Lemma replacement_value_unguarded_witness :
  let run := process_hash Scenario.chain 4 Scenario.world in
  exists r,
    constructed (ops_of run) = [r] /\
    Value r = -231000 /\
    signed (ops_of run) = [(Scenario.kX, r)] /\
    exists signedTx, sent (ops_of run) = [signedTx] /\ tx_value signedTx = -231000.
Proof.
  destruct (replacement_value_unguarded Scenario.chain Scenario.world 4
              Scenario.tx_poor Scenario.X Scenario.kX poor_accepted)
    as (r & Hc & Hv & Hs & Hb).
  exists r. repeat split; try assumption.
  assert (Hr : r = build_replacement Scenario.chain Scenario.tx_poor).
  { vm_compute in Hc. injection Hc as <-. reflexivity. }
  eexists. split.
  - apply Hb. rewrite Hr. vm_compute. reflexivity.
  - reflexivity.
Defined.

Lemma replacement_nonce_gas_destination_witness :
  let run := process_hash Scenario.chain 1 Scenario.world in
  exists r,
    constructed (ops_of run) = [r] /\
    Nonce r = 5%N /\
    Gas r = 21000%N /\
    To r = Some 0%nat /\
    deref (heap (world_of run)) (To r) = Some Scenario.R.
Proof.
  apply (replacement_nonce_gas_destination Scenario.chain Scenario.world 1
           Scenario.tx_Y Scenario.X Scenario.kX Scenario.R scenario_accepted).
  reflexivity.
Defined.

(** A transaction of [X] with gas price 99. *)
Lemma cheap_accepted :
  accepted Scenario.chain Scenario.world 3 Scenario.tx_cheap Scenario.X Scenario.kX.
Proof.
  repeat split; try (vm_compute; reflexivity); vm_compute; eauto.
Defined.

Lemma low_gas_price_no_bump_witness :
  big_Mul (big_Div 99 (SetUint64 100)) (SetUint64 11) = 0 /\
  exists r,
    constructed (ops_of (process_hash Scenario.chain 3 Scenario.world)) = [r] /\
    GasPrice r = 99 /\
    Value r = 1000000.
Proof.
  apply (low_gas_price_no_bump Scenario.chain Scenario.world 3 Scenario.tx_cheap
           Scenario.X Scenario.kX cheap_accepted).
  simpl. lia.
Defined.

(** ** Transactions that are skipped *)

Section Skipped.
Context {Node : Type} `{EthNode Node}.
Implicit Types (c : Chain) (w : World Node) (tx : Transaction).

(** C5. For every observed transaction whose recovered sender is not a key
    of the registry, processing its hash constructs no replacement (and so
    signs and broadcasts nothing). *)
Theorem foreign_sender_not_replaced c w txHash tx from :
  observed w txHash tx ->
  Sender (signer c) tx = inl from ->
  accounts c !! from = None ->
  let ops := ops_of (process_hash c txHash w) in
  constructed ops = [] /\ signed ops = [] /\ sent ops = [].
Proof.
  unfold observed. intros Hobs Hs Ha.
  destruct (TransactionByHash (node w) txHash) as [r1 n1] eqn:Hf.
  simpl in Hobs. subst r1.
  destruct (tx_to tx) as [d|] eqn:Hto; simpl.
  - rewrite (process_hash_not_controlled c w txHash tx n1 d from Hf Hto Hs Ha).
    repeat split.
  - rewrite (process_hash_no_destination c w txHash tx n1 Hf Hto).
    repeat split.
Qed.

(** C6. For every observed transaction with no destination (a contract
    creation), the fetch is the only operation performed for its hash: no
    sender is recovered, the registry is not looked up, no replacement is
    constructed, and the heap is left as it was. *)
Theorem contract_creation_skipped c w txHash tx :
  observed w txHash tx ->
  tx_to tx = None ->
  let run := process_hash c txHash w in
  ops_of run = [OpFetch txHash] /\
  recovered (ops_of run) = [] /\
  looked_up (ops_of run) = [] /\
  constructed (ops_of run) = [] /\
  heap (world_of run) = heap w.
Proof.
  unfold observed. intros Hobs Hto.
  destruct (TransactionByHash (node w) txHash) as [r1 n1] eqn:Hf.
  simpl in Hobs. subst r1. simpl.
  rewrite (process_hash_no_destination c w txHash tx n1 Hf Hto).
  repeat split.
Qed.

End Skipped.

Lemma foreign_sender_not_replaced_witness :
  let ops := ops_of (process_hash Scenario.chain 5 Scenario.world) in
  constructed ops = [] /\ signed ops = [] /\ sent ops = [].
Proof.
  apply (foreign_sender_not_replaced Scenario.chain Scenario.world 5
           Scenario.tx_foreign 0xCC); vm_compute; reflexivity.
Defined.

Lemma contract_creation_skipped_witness :
  let run := process_hash Scenario.chain 6 Scenario.world in
  ops_of run = [OpFetch 6] /\
  recovered (ops_of run) = [] /\
  looked_up (ops_of run) = [] /\
  constructed (ops_of run) = [] /\
  heap (world_of run) = [Scenario.R].
Proof.
  apply (contract_creation_skipped Scenario.chain Scenario.world 6
           Scenario.tx_create); vm_compute; reflexivity.
Defined.

(** ** The destination test of line 85 *)

(** [Connect] leaves the receiver where the chain's pointer points. *)
Lemma Connect_receiver `{Crypto} `{Network} endpoint reciver accs (h : Heap) c ops h' :
  Connect endpoint reciver accs h = (inl c, ops, h') ->
  deref h' (reciever c) = Some reciver /\ accounts c = accs.
Proof.
  unfold Connect, new_Address.
  destruct (rpc_Dial endpoint); [discriminate|].
  destruct (eth_ChainID endpoint); [|discriminate].
  intros [= <- _ <-]. simpl. split; [|reflexivity].
  rewrite lookup_app_r by lia. rewrite Nat.sub_diag. reflexivity.
Qed.

(** The chain and world of the scenario are those [Connect] returns. *)
Lemma scenario_Connect :
  @Connect Scenario.crypto Scenario.network "ws://node" Scenario.R
    (accounts Scenario.chain) [] =
  (inl Scenario.chain, [SDial "ws://node"; SChainID "ws://node"],
   heap Scenario.world).
Proof. reflexivity. Qed.

(** The test of line 85 exempts no destination: a transaction of a
    controlled sender that already pays the receiver [R] is replaced like any
    other. *)
Lemma receiver_destination_not_exempt {Node} `{EthNode Node} (c : Chain)
    (w : World Node) txHash tx from privateKey (R : Address) :
  accepted c w txHash tx from privateKey ->
  deref (heap w) (reciever c) = Some R ->
  tx_to tx = Some R ->
  constructed (ops_of (process_hash c txHash w)) = [build_replacement c tx].
Proof.
  intros Hacc _ _.
  destruct (accepted_run c w txHash tx from privateKey Hacc) as (Hc & _).
  exact Hc.
Qed.

(** C1, run on the code.  The pending transaction [tx_R] is sent by the
    controlled account [X] to the receiver address [R] itself.  Line 85
    compares the pointer [tx.To()] returns, a fresh copy, with the pointer
    [c.reciever]; they differ although both point to [R], so a replacement
    (gas price 111, value 769000, destination [R]) is constructed, signed
    and broadcast. *)
Theorem receiver_destination_replaced :
  tx_to Scenario.tx_R = Some Scenario.R /\
  deref (heap Scenario.world) (reciever Scenario.chain) = Some Scenario.R /\
  let run := process_hash Scenario.chain 2 Scenario.world in
  constructed (ops_of run) =
    [{| To := Some 0%nat; Value := 769000; Gas := 21000; GasPrice := 111;
        Nonce := 5 |}] /\
  map tx_to (sent (ops_of run)) = [Some Scenario.R].
Proof. vm_compute. repeat split. Qed.

(** ** The event loop *)

Section EventLoop.
Context {Node : Type} `{EthNode Node}.
Implicit Types (c : Chain) (w : World Node) (evs : list Event).

Lemma fetched_app (o1 o2 : list Op) : fetched (o1 ++ o2) = fetched o1 ++ fetched o2.
Proof. unfold fetched. apply omap_app. Qed.

(** Whatever happens to a hash (failed fetch, no destination, failed
    recovery, foreign sender, failed signature, failed or successful
    broadcast), its processing returns to the loop having fetched it
    once. *)
Lemma process_hash_fetches_once c w txHash :
  fetched (ops_of (process_hash c txHash w)) = [txHash].
Proof.
  unfold process_hash, bind, eth_TransactionByHash, tx_To, signer_Sender,
    accounts_lookup, types_SignNewTx, eth_SendTransaction, emit, log_Printf,
    ret, ops_of.
  destruct (TransactionByHash (node w) txHash) as [[tx|err] n1]; simpl;
    [|reflexivity].
  destruct (tx_to tx) as [d|]; simpl; [|reflexivity].
  destruct (Sender (signer c) tx) as [from|err]; simpl; [|reflexivity].
  destruct (accounts c !! from) as [privateKey|]; simpl; [|reflexivity].
  case_bool_decide; simpl; [|reflexivity].
  destruct (SignNewTx _ _ _ _) as [signedTx|err]; simpl; [|reflexivity].
  destruct (SendTransaction n1 signedTx) as [[err|] n2]; reflexivity.
Qed.

Lemma event_loop_step c txHash evs w :
  event_loop c (TxHash txHash :: evs) w =
    let '(_, o1, w1) := process_hash c txHash w in
    let '(e, o2, w2) := event_loop c evs w1 in
    (e, o1 ++ o2, w2).
Proof. reflexivity. Qed.

(** A run of hashes followed by [tail]: every hash is fetched, in order, and
    the loop goes on with [tail]. *)
Lemma event_loop_hashes c (hs : list Hash) evs (res : option error) :
  (forall w, result_of (event_loop c evs w) = res /\
             fetched (ops_of (event_loop c evs w)) = []) ->
  forall w,
    result_of (event_loop c (map TxHash hs ++ evs) w) = res /\
    fetched (ops_of (event_loop c (map TxHash hs ++ evs) w)) = hs.
Proof.
  intros Htail. induction hs as [|h hs IH]; intros w.
  - simpl. apply Htail.
  - simpl map. simpl app. rewrite event_loop_step.
    pose proof (process_hash_fetches_once c w h) as Hh.
    destruct (process_hash c h w) as [[u o1] w1].
    specialize (IH w1).
    destruct (event_loop c (map TxHash hs ++ evs) w1) as [[e o2] w2].
    unfold result_of, ops_of in *. simpl in *.
    destruct IH as [-> Hf]. split; [reflexivity|].
    rewrite fetched_app, Hh, Hf. reflexivity.
Qed.

(** Processing a hash only allocates: the heap grows at its end. *)
Lemma process_hash_heap c w txHash :
  exists ext, heap (world_of (process_hash c txHash w)) = heap w ++ ext.
Proof.
  unfold process_hash, bind, eth_TransactionByHash, tx_To, signer_Sender,
    accounts_lookup, types_SignNewTx, eth_SendTransaction, emit, log_Printf,
    ret, world_of.
  destruct (TransactionByHash (node w) txHash) as [[tx|err] n1]; simpl;
    [|exists []; symmetry; apply app_nil_r].
  destruct (tx_to tx) as [d|]; simpl; [|exists []; symmetry; apply app_nil_r].
  destruct (Sender (signer c) tx) as [from|err]; simpl; [|exists [d]; reflexivity].
  destruct (accounts c !! from) as [privateKey|]; simpl; [|exists [d]; reflexivity].
  exists [d; d]. rewrite <- app_assoc. simpl.
  case_bool_decide; simpl; [|reflexivity].
  destruct (SignNewTx _ _ _ _) as [signedTx|err]; simpl; [|reflexivity].
  destruct (SendTransaction n1 signedTx) as [[err|] n2]; reflexivity.
Qed.

Lemma event_loop_heap c evs w :
  exists ext, heap (world_of (event_loop c evs w)) = heap w ++ ext.
Proof.
  revert w. induction evs as [|[err|txHash] evs IH]; intros w.
  - exists []. symmetry. apply app_nil_r.
  - exists []. symmetry. apply app_nil_r.
  - rewrite event_loop_step.
    destruct (process_hash_heap c w txHash) as [e1 H1].
    destruct (process_hash c txHash w) as [[u o1] w1].
    destruct (IH w1) as [e2 H2].
    destruct (event_loop c evs w1) as [[e o2] w2].
    unfold world_of in *. simpl in *.
    exists (e1 ++ e2). rewrite H2, H1, app_assoc. reflexivity.
Qed.

(** The receiver's cell, allocated by [Connect], stays what the chain's
    pointer points to for the whole run of a monitor. *)
Lemma receiver_stays_allocated c evs w (R : Address) :
  deref (heap w) (reciever c) = Some R ->
  deref (heap (world_of (event_loop c evs w))) (reciever c) = Some R.
Proof.
  intros HR. destruct (event_loop_heap c evs w) as [ext ->].
  apply deref_app. exact HR.
Qed.

(** C9. With the subscription established, after any hashes [hs] a
    subscription error [err] ends the loop and is the result of
    [ScanPending], and what [select] would deliver afterwards is not
    consumed; every hash of [hs] has been consumed, in order, whatever
    happened to the hashes before it (the statement holds for every node and
    signer, failing or not); and without a subscription error the loop has
    not returned. *)
Theorem subscription_error_ends_loop c w (hs : list Hash) (err : error) evs :
  (SubscribePendingTransactions (node w)).1 = None ->
  let stopped := ScanPending c (map TxHash hs ++ SubErr err :: evs) w in
  let running := ScanPending c (map TxHash hs) w in
  result_of stopped = Some err /\
  fetched (ops_of stopped) = hs /\
  result_of running = None /\
  fetched (ops_of running) = hs.
Proof.
  intros Hsub. unfold ScanPending.
  destruct (SubscribePendingTransactions (node w)) as [e n1].
  simpl in Hsub. subst e. simpl.
  pose proof (event_loop_hashes c hs (SubErr err :: evs) (Some err)) as Hstop.
  pose proof (event_loop_hashes c hs [] None) as Hrun.
  rewrite app_nil_r in Hrun.
  split; [apply Hstop|split; [apply Hstop|split; apply Hrun]];
    intros w'; split; reflexivity.
Qed.

End EventLoop.

(** A feed on which a fetch fails (hash 99 is unknown), a sender does not
    recover (hash 7), a broadcast is refused (hash 4) and a replacement goes
    through (hash 1), then the subscription fails. *)
Lemma subscription_error_ends_loop_witness :
  let stopped :=
    ScanPending Scenario.chain
      (map TxHash [99; 7; 4; 1] ++ SubErr "EOF" :: [TxHash 3]) Scenario.world in
  let running := ScanPending Scenario.chain (map TxHash [99; 7; 4; 1]) Scenario.world in
  result_of stopped = Some "EOF"%string /\
  fetched (ops_of stopped) = [99; 7; 4; 1] /\
  result_of running = None /\
  fetched (ops_of running) = [99; 7; 4; 1].
Proof.
  apply (subscription_error_ends_loop Scenario.chain Scenario.world [99; 7; 4; 1]
           "EOF" [TxHash 3]).
  reflexivity.
Defined.

(** The same feed, operation by operation. *)
Example scenario_feed_log :
  omap (fun o => match o with OpLog l => Some l | _ => None end)
    (ops_of (ScanPending Scenario.chain
               (map TxHash [99; 7; 4; 1] ++ SubErr "EOF" :: [TxHash 3])
               Scenario.world)) =
  [couldnt_get_tx 99 "not found"; couldnt_get_sender 7 "invalid signature";
   couldnt_send 4 "negative value"; replaced 1 4666].
Proof. vm_compute. reflexivity. Qed.

(** ** Loading the accounts *)

Section Accounts.
Context `{Crypto}.
Implicit Types (lines : list string) (acc : gmap Z Z).

Lemma load_accounts_app_skip before bad after acc err :
  HexToECDSA (TrimPrefix bad "0x") = inr err ->
  (load_accounts (before ++ bad :: after) acc).1 =
  (load_accounts (before ++ after) acc).1.
Proof.
  intros Hbad. revert acc. induction before as [|text before IH]; intros acc; simpl.
  - rewrite Hbad. destruct (load_accounts after acc). reflexivity.
  - destruct (HexToECDSA (TrimPrefix text "0x")) as [k|e].
    + apply IH.
    + specialize (IH acc).
      destruct (load_accounts (before ++ bad :: after) acc),
               (load_accounts (before ++ after) acc).
      exact IH.
Qed.

(** An entry whose key derives its address stays one, under any further
    lines. *)
Lemma load_accounts_keeps lines acc (a : Address) (k : PrivateKey) :
  acc !! a = Some k ->
  PubkeyToAddress k = a ->
  exists k', (load_accounts lines acc).1 !! a = Some k' /\ PubkeyToAddress k' = a.
Proof.
  revert acc k. induction lines as [|text lines IH]; intros acc k Hk Ha; simpl.
  - exists k. split; assumption.
  - destruct (HexToECDSA (TrimPrefix text "0x")) as [k1|e].
    + destruct (decide (PubkeyToAddress k1 = a)) as [Heq|Hne].
      * apply (IH _ k1); [|exact Heq].
        rewrite Heq. apply lookup_insert_eq.
      * apply (IH _ k); [|exact Ha].
        rewrite lookup_insert_ne by exact Hne. exact Hk.
    + destruct (IH acc k Hk Ha) as (k' & Hl & Hk').
      destruct (load_accounts lines acc). exists k'. split; assumption.
Qed.

(** Every line that parses has its address in the registry. *)
Lemma load_accounts_valid lines acc text (k : PrivateKey) :
  text ∈ lines ->
  HexToECDSA (TrimPrefix text "0x") = inl k ->
  exists k',
    (load_accounts lines acc).1 !! PubkeyToAddress k = Some k' /\
    PubkeyToAddress k' = PubkeyToAddress k.
Proof.
  intros Hin Hk. revert acc.
  induction Hin as [text lines|text other lines Hin IH]; intros acc; simpl.
  - rewrite Hk. apply (load_accounts_keeps _ _ _ k); [|reflexivity].
    apply lookup_insert_eq.
  - destruct (HexToECDSA (TrimPrefix other "0x")) as [k1|e].
    + apply IH. exact Hk.
    + destruct (IH Hk acc) as (k' & Hl & Hk').
      destruct (load_accounts lines acc). exists k'. split; assumption.
Qed.

(** The loop, on the lines it is handed.  A line [bad] that does not parse
    as a key is skipped: the registry
    is the one loaded without that line, so the load is not aborted, and
    every line after it that parses has its address in the registry, with a
    key of that address.  Loading [bad] followed by one line [good] that
    parses to [k] gives the registry with the single entry of [k], and one
    warning. *)
Lemma malformed_line_skipped before bad after good acc err (k : PrivateKey) :
  HexToECDSA (TrimPrefix bad "0x") = inr err ->
  HexToECDSA (TrimPrefix good "0x") = inl k ->
  (load_accounts (before ++ bad :: after) acc).1 =
    (load_accounts (before ++ after) acc).1 /\
  (forall text (k1 : PrivateKey),
     text ∈ after ->
     HexToECDSA (TrimPrefix text "0x") = inl k1 ->
     exists k2,
       (load_accounts (before ++ bad :: after) acc).1 !! PubkeyToAddress k1 = Some k2 /\
       PubkeyToAddress k2 = PubkeyToAddress k1) /\
  load_accounts [bad; good] ∅ =
    ({[PubkeyToAddress k := k]}, [SPrint (couldnt_convert bad err)]) /\
  size (load_accounts [bad; good] ∅).1 = 1%nat.
Proof.
  intros Hbad Hgood. split; [|split; [|split]].
  - apply (load_accounts_app_skip _ _ _ _ err). exact Hbad.
  - intros text k1 Hin Hk1. apply (load_accounts_valid _ _ text); [|exact Hk1].
    apply elem_of_app. right. apply elem_of_cons. right. exact Hin.
  - simpl. rewrite Hbad, Hgood. reflexivity.
  - simpl. rewrite Hbad, Hgood. simpl. rewrite insert_empty.
    apply map_size_singleton.
Qed.

End Accounts.

Example TrimPrefix_0x : TrimPrefix "0xabc" "0x" = "abc"%string.
Proof. reflexivity. Qed.

Example TrimPrefix_none : TrimPrefix "not-a-key" "0x" = "not-a-key"%string.
Proof. reflexivity. Qed.

Example parse_key_not_a_key :
  Scenario.parse_key "not-a-key" = inr "invalid hex character in private key"%string.
Proof. reflexivity. Qed.


(** ** Start-up without a configuration file *)

Section Template.
Context `{Crypto} `{Network}.

(** The template: the zero address, and the [nil] slice of endpoints, which
    [encoding/json] writes as [null]. *)
Lemma template_document :
  json_Config emtpyConfig =
  JObject
    [("reciever"%string, JString "0x0000000000000000000000000000000000000000");
     ("endpoints"%string, JNull)].
Proof. reflexivity. Qed.

(** The start-up without [config.json], on the [Config] value encoded.
    When [config.json] does not exist, [main] ends in [log.Fatal]
    without dialling any endpoint and without starting any monitor; when the
    file can be created and written, what it writes to [config.json] is the
    zero [Config], whose [reciever] is the zero address and whose
    [endpoints] is the zero-value (empty) sequence. *)
Lemma missing_config_writes_template (fs : Files) :
  open_config fs = inr ErrNotExist ->
  let out := (main fs).1.1 in
  let ops := (main fs).1.2 in
  (exists l, out = Fatal l) /\
  dialled ops = [] /\
  started ops = [] /\
  (create_config fs = None ->
   encode_config fs = None ->
   out = Fatal empty_config_created /\
   encoded ops = [("config.json"%string, json_Config emtpyConfig)] /\
   Reciever emtpyConfig = 0 /\
   Address_MarshalText (Reciever emtpyConfig) =
     "0x0000000000000000000000000000000000000000"%string /\
   elems (Endpoints emtpyConfig) = [] /\
   len (Endpoints emtpyConfig) = 0%nat).
Proof.
  intros Hopen. unfold main. rewrite Hopen.
  destruct (create_config fs) as [e1|]; simpl.
  - repeat split; try discriminate. eexists. reflexivity.
  - destruct (encode_config fs) as [e2|]; simpl.
    + repeat split; try discriminate. eexists. reflexivity.
    + repeat split. eexists. reflexivity.
Qed.

End Template.


(** With a configuration in place the same start-up connects and starts one
    monitor per endpoint. *)
Example scenario_starts_monitor :
  let fs := {| open_config := inl (inl {| Reciever := Scenario.R;
                                            Endpoints := Some ["ws://node"%string] |});
               create_config := None; encode_config := None;
               open_accounts := inl Scenario.lines |} in
  let run := @main Scenario.crypto Scenario.network fs in
  dialled run.1.2 = ["ws://node"%string] /\
  map fst (started run.1.2) = ["ws://node"%string] /\
  map (fun m => reciever m.2) (started run.1.2) = [Some 0%nat] /\
  run.2 = [Scenario.R].
Proof. vm_compute. repeat split. Qed.

(** * Further properties *)

(** ** The fee arithmetic of lines 86-93 *)

Lemma bump_euclid (g : Z) :
  exists m, g = 100 * (g / 100) + m /\ 0 <= m < 100.
Proof.
  exists (g mod 100). split.
  - apply Z.div_mod. lia.
  - apply Z.mod_pos_bound. lia.
Qed.

Section Budget.
Context {Node : Type} `{EthNode Node}.
Implicit Types (c : Chain) (w : World Node) (tx : Transaction).

(** X1. The replacement of an accepted transaction can spend exactly what
    the observed transaction could: its value plus its gas price times its
    gas limit equals the observed value plus the observed gas price times
    the observed gas limit.  What the fee bump adds to the maximal fee is
    what line 91 takes from the value. *)
Theorem replacement_budget_preserved c w txHash tx from privateKey :
  accepted c w txHash tx from privateKey ->
  exists r,
    constructed (ops_of (process_hash c txHash w)) = [r] /\
    Value r + GasPrice r * Z.of_N (Gas r) =
    tx_value tx + tx_gasPrice tx * Z.of_N (tx_gas tx).
Proof.
  intros Hacc.
  destruct (accepted_run c w txHash tx from privateKey Hacc) as (Hc & _).
  exists (build_replacement c tx). split; [exact Hc|].
  unfold build_replacement. cbn [Value GasPrice Gas].
  unfold big_Sub, big_Add, big_Mul, SetUint64. ring.
Qed.

(** X2. For an accepted transaction with a gas price [g] that is not
    negative, the replacement's gas price is at least [g], exceeds it by at
    most 11 percent of [g], and falls short of [g] plus 11 percent by less
    than 11. *)
Theorem replacement_price_bounds c w txHash tx from privateKey :
  accepted c w txHash tx from privateKey ->
  0 <= tx_gasPrice tx ->
  let g := tx_gasPrice tx in
  exists r,
    constructed (ops_of (process_hash c txHash w)) = [r] /\
    g <= GasPrice r /\
    100 * (GasPrice r - g) <= 11 * g /\
    11 * g < 100 * (GasPrice r - g) + 1100.
Proof.
  intros Hacc Hg g.
  destruct (accepted_run c w txHash tx from privateKey Hacc) as (Hc & _).
  exists (build_replacement c tx). split; [exact Hc|].
  unfold build_replacement. cbn [GasPrice]. unfold big_Add.
  rewrite bump_formula. fold g.
  destruct (bump_euclid g) as (m & Hm & Hb).
  assert (0 <= g / 100) by (apply Z.div_pos; lia).
  lia.
Qed.

(** X3. From a gas price of 1000 on, the replacement's gas price is at
    least 110 percent of the observed one. *)
Theorem replacement_price_ten_percent c w txHash tx from privateKey :
  accepted c w txHash tx from privateKey ->
  1000 <= tx_gasPrice tx ->
  exists r,
    constructed (ops_of (process_hash c txHash w)) = [r] /\
    110 * tx_gasPrice tx <= 100 * GasPrice r.
Proof.
  intros Hacc Hg.
  destruct (accepted_run c w txHash tx from privateKey Hacc) as (Hc & _).
  exists (build_replacement c tx). split; [exact Hc|].
  unfold build_replacement. cbn [GasPrice]. unfold big_Add.
  rewrite bump_formula.
  destruct (bump_euclid (tx_gasPrice tx)) as (m & Hm & Hb).
  assert (10 <= tx_gasPrice tx / 100) by (apply Z.div_le_lower_bound; lia).
  lia.
Qed.

(** X4. For an accepted transaction with a gas price [g] that is not
    negative, the replacement's value is at most the observed value [v],
    and is below it by at most 11 percent of [g] times the gas limit; so it
    is not negative as soon as [11 * g * l <= 100 * v]. *)
Theorem replacement_value_bounds c w txHash tx from privateKey :
  accepted c w txHash tx from privateKey ->
  0 <= tx_gasPrice tx ->
  let g := tx_gasPrice tx in
  let l := Z.of_N (tx_gas tx) in
  let v := tx_value tx in
  exists r,
    constructed (ops_of (process_hash c txHash w)) = [r] /\
    Value r <= v /\
    100 * (v - Value r) <= 11 * g * l /\
    (11 * g * l <= 100 * v -> 0 <= Value r).
Proof.
  intros Hacc Hg g l v.
  destruct (accepted_run c w txHash tx from privateKey Hacc) as (Hc & _).
  exists (build_replacement c tx). split; [exact Hc|].
  unfold build_replacement. cbn [Value].
  rewrite !bump_formula. unfold big_Sub, big_Mul, SetUint64. fold g l v.
  destruct (bump_euclid g) as (m & Hm & Hb).
  assert (Hq : 0 <= g / 100) by (apply Z.div_pos; lia).
  assert (Hl : 0 <= l) by (subst l; lia).
  set (q := g / 100) in *.
  assert (0 <= q * l) by nia.
  assert (0 <= m * l) by nia.
  assert (Hgl : 11 * g * l = 1100 * (q * l) + 11 * (m * l))
    by (rewrite Hm at 1; ring).
  replace (q * 11 * l) with (11 * (q * l)) by ring.
  rewrite Hgl. lia.
Qed.

End Budget.

Lemma replacement_budget_preserved_witness :
  exists r,
    constructed (ops_of (process_hash Scenario.chain 1 Scenario.world)) = [r] /\
    Value r + GasPrice r * Z.of_N (Gas r) = 1000000 + 100 * 21000.
Proof.
  apply (replacement_budget_preserved Scenario.chain Scenario.world 1
           Scenario.tx_Y Scenario.X Scenario.kX scenario_accepted).
Defined.

Lemma replacement_price_bounds_witness :
  exists r,
    constructed (ops_of (process_hash Scenario.chain 3 Scenario.world)) = [r] /\
    99 <= GasPrice r /\
    100 * (GasPrice r - 99) <= 11 * 99 /\
    11 * 99 < 100 * (GasPrice r - 99) + 1100.
Proof.
  apply (replacement_price_bounds Scenario.chain Scenario.world 3
           Scenario.tx_cheap Scenario.X Scenario.kX cheap_accepted).
  simpl. lia.
Defined.

(** The transfer of [Market]: accepted, at a gas price above 1000. *)
Lemma gwei_accepted :
  accepted Scenario.chain Market.world 8 Market.tx_gwei Scenario.X Scenario.kX.
Proof.
  repeat split; try (vm_compute; reflexivity); vm_compute; eauto.
Defined.

Lemma replacement_price_ten_percent_witness :
  exists r,
    constructed (ops_of (process_hash Scenario.chain 8 Market.world)) = [r] /\
    110 * 30000000000 <= 100 * GasPrice r.
Proof.
  apply (replacement_price_ten_percent Scenario.chain Market.world 8
           Market.tx_gwei Scenario.X Scenario.kX gwei_accepted).
  simpl. lia.
Defined.

Lemma replacement_value_bounds_witness :
  exists r,
    constructed (ops_of (process_hash Scenario.chain 1 Scenario.world)) = [r] /\
    Value r <= 1000000 /\
    100 * (1000000 - Value r) <= 11 * 100 * 21000 /\
    0 <= Value r.
Proof.
  destruct (replacement_value_bounds Scenario.chain Scenario.world 1
              Scenario.tx_Y Scenario.X Scenario.kX scenario_accepted)
    as (r & Hc & Hle & Hlow & Hpos).
  - simpl. lia.
  - exists r. repeat split; try assumption. apply Hpos. simpl. lia.
Defined.

(** ** What a monitor signs and broadcasts *)

Section Feed.
Context {Node : Type} `{EthNode Node}.
Implicit Types (c : Chain) (w : World Node) (evs : list Event).

(** The two ways the processing of a hash can go: nothing is constructed
    (and at most one line is logged), or one replacement is constructed for
    a sender of the registry, signed with its key, and one line is
    logged. *)
Lemma process_hash_shape c w txHash :
  let ops := ops_of (process_hash c txHash w) in
  (constructed ops = [] /\ signed ops = [] /\ sent ops = [] /\
   superseded ops = [] /\ (length (logged ops) <= 1)%nat) \/
  (exists tx from k hp,
     accounts c !! from = Some k /\
     constructed ops = [build_replacement c tx] /\
     signed ops = [(k, build_replacement c tx)] /\
     length (logged ops) = 1%nat /\
     ((sent ops = [] /\ superseded ops = []) \/
      exists s,
        SignNewTx (signer c) k hp (build_replacement c tx) = inl s /\
        sent ops = [s] /\
        (superseded ops = [] \/ superseded ops = [tx_hash s]))).
Proof.
  unfold process_hash, bind, eth_TransactionByHash, tx_To, signer_Sender,
    accounts_lookup, types_SignNewTx, eth_SendTransaction, emit, log_Printf,
    ret, ops_of.
  destruct (TransactionByHash (node w) txHash) as [[tx|err] n1]; simpl;
    [|left; repeat split; simpl; lia].
  destruct (tx_to tx) as [d|]; simpl; [|left; repeat split; simpl; lia].
  destruct (Sender (signer c) tx) as [from|err]; simpl;
    [|left; repeat split; simpl; lia].
  destruct (accounts c !! from) as [privateKey|] eqn:Ha; simpl;
    [|left; repeat split; simpl; lia].
  case_bool_decide; simpl; [|left; repeat split; simpl; lia].
  destruct (SignNewTx _ _ _ _) as [signedTx|err] eqn:Hs; simpl;
    right; exists tx, from, privateKey, ((heap w ++ [d]) ++ [d]).
  - destruct (SendTransaction n1 signedTx) as [[err|] n2]; simpl;
      repeat split; try exact Ha; right; exists signedTx;
      (split; [exact Hs|split; [reflexivity|]]); [left|right]; reflexivity.
  - repeat split; try exact Ha. left. split; reflexivity.
Qed.

(** A property of the operations that holds of no operation at all, of
    those of every single hash, and of two runs put end to end, holds of
    those of the loop. *)
Lemma event_loop_ops_closed c (Q : list Op -> Prop) :
  Q [] ->
  (forall a b, Q a -> Q b -> Q (a ++ b)) ->
  (forall w txHash, Q (ops_of (process_hash c txHash w))) ->
  forall evs w, Q (ops_of (event_loop c evs w)).
Proof.
  intros Hnil Happ Hone evs.
  induction evs as [|[err|txHash] evs IH]; intros w; try exact Hnil.
  rewrite event_loop_step.
  specialize (Hone w txHash).
  destruct (process_hash c txHash w) as [[u o1] w1].
  specialize (IH w1).
  destruct (event_loop c evs w1) as [[e o2] w2].
  unfold ops_of in *. simpl in *. apply Happ; assumption.
Qed.

Lemma ScanPending_ops_closed c (Q : list Op -> Prop) :
  Q [] ->
  (forall a b, Q a -> Q b -> Q (a ++ b)) ->
  (forall w txHash, Q (ops_of (process_hash c txHash w))) ->
  forall evs w, Q (ops_of (ScanPending c evs w)).
Proof.
  intros Hnil Happ Hone evs w. unfold ScanPending.
  destruct (SubscribePendingTransactions (node w)) as [[err|] n1].
  - exact Hnil.
  - apply event_loop_ops_closed; assumption.
Qed.

Lemma constructed_app (a b : list Op) :
  constructed (a ++ b) = constructed a ++ constructed b.
Proof. apply omap_app. Qed.

Lemma signed_app (a b : list Op) : signed (a ++ b) = signed a ++ signed b.
Proof. apply omap_app. Qed.

Lemma sent_app (a b : list Op) : sent (a ++ b) = sent a ++ sent b.
Proof. apply omap_app. Qed.

Lemma logged_app (a b : list Op) : logged (a ++ b) = logged a ++ logged b.
Proof. apply omap_app. Qed.

Lemma superseded_app (a b : list Op) :
  superseded (a ++ b) = superseded a ++ superseded b.
Proof. apply omap_app. Qed.

(** X5. Whatever the node delivers, every transaction a monitor
    broadcasts is what the signer returned for a key of the registry and a
    replacement, signed during the run, whose destination is the chain's
    receiver pointer: nothing else is ever sent to the node. *)
Theorem broadcasts_signed_by_registry c evs w :
  let ops := ops_of (ScanPending c evs w) in
  Forall
    (fun s =>
       exists k r hp,
         (exists a, accounts c !! a = Some k) /\
         To r = reciever c /\
         (k, r) ∈ signed ops /\
         SignNewTx (signer c) k hp r = inl s)
    (sent ops).
Proof.
  apply (ScanPending_ops_closed c
    (fun ops =>
       Forall
         (fun s =>
            exists k r hp,
              (exists a, accounts c !! a = Some k) /\
              To r = reciever c /\
              (k, r) ∈ signed ops /\
              SignNewTx (signer c) k hp r = inl s)
         (sent ops))).
  - constructor.
  - intros a b Ha Hb. rewrite sent_app. apply Forall_app. split.
    + eapply Forall_impl; [exact Ha|].
      intros s (k & r & hp & Hk & Hto & Hin & Hs). exists k, r, hp.
      repeat split; try assumption. rewrite signed_app. apply elem_of_app.
      left. exact Hin.
    + eapply Forall_impl; [exact Hb|].
      intros s (k & r & hp & Hk & Hto & Hin & Hs). exists k, r, hp.
      repeat split; try assumption. rewrite signed_app. apply elem_of_app.
      right. exact Hin.
  - intros w1 txHash.
    destruct (process_hash_shape c w1 txHash)
      as [(_ & _ & -> & _)|(tx & from & k & hp & Ha & _ & Hsig & _ & Hsent)].
    + constructor.
    + destruct Hsent as [[-> _]|(s & Hs & -> & _)]; [constructor|].
      constructor; [|constructor].
      exists k, (build_replacement c tx), hp. repeat split.
      * exists from. exact Ha.
      * rewrite Hsig. apply list_elem_of_here.
      * exact Hs.
Qed.

(** X6. In a run of a monitor the replacements signed are the replacements
    constructed, each once and in order; every signing key is a key of the
    registry, and every replacement is destined to the chain's receiver
    pointer. *)
Theorem replacements_signed_in_order c evs w :
  let ops := ops_of (ScanPending c evs w) in
  map snd (signed ops) = constructed ops /\
  Forall (fun kr => exists a, accounts c !! a = Some kr.1) (signed ops) /\
  Forall (fun r => To r = reciever c) (constructed ops).
Proof.
  apply (ScanPending_ops_closed c
    (fun ops =>
       map snd (signed ops) = constructed ops /\
       Forall (fun kr => exists a, accounts c !! a = Some kr.1) (signed ops) /\
       Forall (fun r => To r = reciever c) (constructed ops))).
  - repeat split; constructor.
  - intros a b (Ha1 & Ha2 & Ha3) (Hb1 & Hb2 & Hb3).
    rewrite signed_app, constructed_app, map_app, Ha1, Hb1.
    repeat split; apply Forall_app; split; assumption.
  - intros w1 txHash.
    destruct (process_hash_shape c w1 txHash)
      as [(-> & -> & _)|(tx & from & k & hp & Ha & -> & -> & _)].
    + repeat split; constructor.
    + repeat split; repeat constructor. exists from. exact Ha.
Qed.

(** X7. In a run of a monitor there are at most as many broadcasts as
    replacements constructed, every replacement constructed leaves a log
    line, and there is at most one log line per hash fetched. *)
Theorem broadcasts_replacements_lines_hashes c evs w :
  let ops := ops_of (ScanPending c evs w) in
  (length (sent ops) <= length (constructed ops))%nat /\
  (length (constructed ops) <= length (logged ops))%nat /\
  (length (logged ops) <= length (fetched ops))%nat.
Proof.
  apply (ScanPending_ops_closed c
    (fun ops =>
       (length (sent ops) <= length (constructed ops))%nat /\
       (length (constructed ops) <= length (logged ops))%nat /\
       (length (logged ops) <= length (fetched ops))%nat)).
  - simpl. lia.
  - intros a b Ha Hb.
    rewrite sent_app, constructed_app, logged_app, fetched_app, !length_app.
    lia.
  - intros w1 txHash. rewrite process_hash_fetches_once.
    destruct (process_hash_shape c w1 txHash)
      as [(-> & _ & -> & _ & Hl)|(tx & from & k & hp & _ & -> & _ & Hl & Hsent)].
    + simpl. lia.
    + destruct Hsent as [[-> _]|(s & _ & -> & _)]; simpl; lia.
Qed.

(** X8. A line [replaced ... with h'] is logged only for a transaction
    that was broadcast: the hashes these lines name are, in order, hashes of
    broadcast transactions. *)
Theorem replaced_lines_name_broadcasts c evs w :
  let ops := ops_of (ScanPending c evs w) in
  superseded ops `sublist_of` map tx_hash (sent ops).
Proof.
  apply (ScanPending_ops_closed c
    (fun ops => superseded ops `sublist_of` map tx_hash (sent ops))).
  - constructor.
  - intros a b Ha Hb. rewrite superseded_app, sent_app, map_app.
    apply sublist_app; assumption.
  - intros w1 txHash.
    destruct (process_hash_shape c w1 txHash)
      as [(_ & _ & -> & -> & _)|(tx & from & k & hp & _ & _ & _ & _ & Hsent)].
    + constructor.
    + destruct Hsent as [[-> ->]|(s & _ & -> & [->| ->])]; simpl.
      * constructor.
      * apply sublist_nil_l.
      * reflexivity.
Qed.

End Feed.

(** The feed of the scenario: one replacement refused by the node, one
    accepted. *)
Example scenario_feed_counts :
  let ops :=
    ops_of (ScanPending Scenario.chain (map TxHash [99; 7; 4; 1; 5; 6])
              Scenario.world) in
  length (fetched ops) = 6%nat /\ length (logged ops) = 4%nat /\
  length (constructed ops) = 2%nat /\ length (sent ops) = 2%nat /\
  superseded ops = [4666].
Proof. vm_compute. repeat split. Qed.

(** ** When [ScanPending] returns *)

Section Returns.
Context {Node : Type} `{EthNode Node}.
Implicit Types (c : Chain) (w : World Node) (evs : list Event).

Lemma event_loop_result c evs w :
  result_of (event_loop c evs w) = first_error evs /\
  fetched (ops_of (event_loop c evs w)) = consumed evs.
Proof.
  revert w. induction evs as [|[err|txHash] evs IH]; intros w;
    try (split; reflexivity).
  rewrite event_loop_step.
  pose proof (process_hash_fetches_once c w txHash) as Hh.
  destruct (process_hash c txHash w) as [[u o1] w1].
  destruct (IH w1) as [Hr Hf].
  destruct (event_loop c evs w1) as [[e o2] w2].
  unfold result_of, ops_of in *. simpl in *. split; [exact Hr|].
  rewrite fetched_app, Hh, Hf. reflexivity.
Qed.

(** X9. [ScanPending] returns the error of the subscription when the
    subscription fails, fetching nothing; otherwise it returns the first
    subscription error delivered, having fetched exactly the hashes
    delivered before it, in order; with no such error it has not
    returned. *)
Theorem ScanPending_returns_first_error c evs w :
  let run := ScanPending c evs w in
  match (SubscribePendingTransactions (node w)).1 with
  | Some err => result_of run = Some err /\ ops_of run = []
  | None => result_of run = first_error evs /\ fetched (ops_of run) = consumed evs
  end.
Proof.
  unfold ScanPending.
  destruct (SubscribePendingTransactions (node w)) as [[err|] n1]; simpl.
  - split; reflexivity.
  - apply event_loop_result.
Qed.

(** X10. Events delivered without a subscription error compose: the loop
    over [evs1 ++ evs2] is the loop over [evs1], then the loop over [evs2]
    from the world the first one leaves, with the operations of both in
    order. *)
Theorem event_loop_app c evs1 evs2 w :
  first_error evs1 = None ->
  event_loop c (evs1 ++ evs2) w =
    let '(_, o1, w1) := event_loop c evs1 w in
    let '(e, o2, w2) := event_loop c evs2 w1 in
    (e, o1 ++ o2, w2).
Proof.
  revert w. induction evs1 as [|[err|txHash] evs1 IH]; intros w Hnone.
  - simpl. destruct (event_loop c evs2 w) as [[e o2] w2]. reflexivity.
  - discriminate.
  - simpl app. rewrite !event_loop_step.
    destruct (process_hash c txHash w) as [[u o1] w1].
    rewrite (IH w1 Hnone).
    destruct (event_loop c evs1 w1) as [[e1 o1'] w1'].
    destruct (event_loop c evs2 w1') as [[e o2] w2].
    rewrite app_assoc. reflexivity.
Qed.

(** X11. Once a subscription error has been delivered nothing delivered
    later has any effect: result, operations and final world are those of
    the events up to the error. *)
Theorem event_loop_after_error c evs1 evs2 w (err : error) :
  first_error evs1 = Some err ->
  event_loop c (evs1 ++ evs2) w = event_loop c evs1 w.
Proof.
  revert w. induction evs1 as [|[err1|txHash] evs1 IH]; intros w Herr.
  - discriminate.
  - reflexivity.
  - simpl app. rewrite !event_loop_step.
    destruct (process_hash c txHash w) as [[u o1] w1].
    rewrite (IH w1 Herr). reflexivity.
Qed.

End Returns.

Lemma event_loop_app_witness :
  event_loop Scenario.chain ([TxHash 99; TxHash 1] ++ [TxHash 4; SubErr "EOF"])
    Scenario.world =
  let '(_, o1, w1) := event_loop Scenario.chain [TxHash 99; TxHash 1] Scenario.world in
  let '(e, o2, w2) := event_loop Scenario.chain [TxHash 4; SubErr "EOF"] w1 in
  (e, o1 ++ o2, w2).
Proof.
  apply (event_loop_app Scenario.chain [TxHash 99; TxHash 1]
           [TxHash 4; SubErr "EOF"] Scenario.world).
  reflexivity.
Defined.

Lemma event_loop_after_error_witness :
  event_loop Scenario.chain ([TxHash 1; SubErr "EOF"] ++ [TxHash 4]) Scenario.world =
  event_loop Scenario.chain [TxHash 1; SubErr "EOF"] Scenario.world.
Proof.
  apply (event_loop_after_error Scenario.chain [TxHash 1; SubErr "EOF"] [TxHash 4]
           Scenario.world "EOF").
  reflexivity.
Defined.

(** ** The registry [main] loads *)

Section Registry.
Context `{Crypto}.
Implicit Types (lines : list string) (acc : gmap Z Z).



Lemma load_accounts_entries lines acc (P : Address -> PrivateKey -> Prop) :
  map_Forall P acc ->
  (forall text k, text ∈ lines -> HexToECDSA (TrimPrefix text "0x") = inl k ->
                  P (PubkeyToAddress k) k) ->
  map_Forall P (load_accounts lines acc).1.
Proof.
  revert acc. induction lines as [|text lines IH]; intros acc Hacc Hlines; simpl.
  - exact Hacc.
  - assert (Hrest : forall t k, t ∈ lines ->
              HexToECDSA (TrimPrefix t "0x") = inl k -> P (PubkeyToAddress k) k).
    { intros t k Hin. apply Hlines. apply elem_of_cons. right. exact Hin. }
    destruct (HexToECDSA (TrimPrefix text "0x")) as [k|e] eqn:Hk.
    + apply IH; [|exact Hrest]. apply map_Forall_insert_2; [|exact Hacc].
      apply (Hlines text); [apply elem_of_cons; left; reflexivity|exact Hk].
    + specialize (IH acc Hacc Hrest). destruct (load_accounts lines acc).
      exact IH.
Qed.

(** X12. Every entry of the registry [main] loads maps the address derived
    from a key to that key, and the key is what some line of the file
    parses to: the registry holds nothing else. *)
Theorem registry_entries_from_lines lines :
  map_Forall
    (fun a k =>
       PubkeyToAddress k = a /\
       exists text, text ∈ lines /\ HexToECDSA (TrimPrefix text "0x") = inl k)
    (load_accounts lines ∅).1.
Proof.
  apply load_accounts_entries.
  - apply map_Forall_empty.
  - intros text k Hin Hk. split; [reflexivity|]. exists text. split; assumption.
Qed.






End Registry.



(** ** The monitors [main] starts *)

Section Supervisor.
Context `{Crypto} `{Network}.

Lemma started_prints (ls : list StartLine) : started (map SPrint ls) = [].
Proof. induction ls; [reflexivity|exact IHls]. Qed.

Lemma dialled_prints (ls : list StartLine) : dialled (map SPrint ls) = [].
Proof. induction ls; [reflexivity|exact IHls]. Qed.

Lemma queried_prints (ls : list StartLine) : queried (map SPrint ls) = [].
Proof. induction ls; [reflexivity|exact IHls]. Qed.

Lemma created_prints (ls : list StartLine) : created (map SPrint ls) = [].
Proof. induction ls; [reflexivity|exact IHls]. Qed.

Lemma encoded_prints (ls : list StartLine) : encoded (map SPrint ls) = [].
Proof. induction ls; [reflexivity|exact IHls]. Qed.

(** The loop over the endpoints: every endpoint is dialled once, in order;
    those that answer are asked their chain identifier; those that also
    answer that get a monitor, with the registry and a cell of its own
    holding the receiver. *)
Lemma start_monitors_spec endpoints (R : Address) (accs : gmap Z Z) (h : Heap) :
  let run := start_monitors endpoints R accs h in
  started run.1.2 = run.1.1 /\
  created run.1.2 = [] /\
  encoded run.1.2 = [] /\
  map fst run.1.1 = List.filter connects endpoints /\
  dialled run.1.2 = endpoints /\
  queried run.1.2 = List.filter dials endpoints /\
  run.2 = h ++ replicate (length endpoints) R /\
  Forall
    (fun m => accounts m.2 = accs /\
              exists l, reciever m.2 = Some l /\ (length h <= l < length run.2)%nat)
    run.1.1 /\
  NoDup (map (fun m => reciever m.2) run.1.1).
Proof.
  revert h. induction endpoints as [|endpoint rest IH]; intros h.
  - simpl. rewrite app_nil_r. repeat split; constructor.
  - specialize (IH (h ++ [R])).
    assert (Hc : connects endpoint =
                 match rpc_Dial endpoint with
                 | Some _ => false
                 | None => match eth_ChainID endpoint with
                           | inl _ => true
                           | inr _ => false
                           end
                 end) by reflexivity.
    assert (Hdl : dials endpoint =
                  match rpc_Dial endpoint with Some _ => false | None => true end)
      by reflexivity.
    cbn [start_monitors List.filter length replicate].
    rewrite Hc, Hdl. clear Hc Hdl. unfold Connect, new_Address.
    destruct (rpc_Dial endpoint) as [err|];
      [|destruct (eth_ChainID endpoint) as [chainId|err]];
      destruct (start_monitors rest R accs (h ++ [R])) as [[ms o2] h2];
      simpl in *;
      destruct IH as (Hst & Hcr & Hen & Hf & Hd & Hq & Hh & Hall & Hnd);
      assert (Hheap : h2 = h ++ R :: replicate (length rest) R)
        by (rewrite Hh, <- app_assoc; reflexivity);
      assert (Hall' :
        Forall (fun m => accounts m.2 = accs /\
                  exists l, reciever m.2 = Some l /\ (length h <= l < length h2)%nat)
          ms)
        by (eapply Forall_impl; [exact Hall|];
            intros m (Ha & l & Hl & Hb); split; [exact Ha|]; exists l;
            split; [exact Hl|]; rewrite length_app in Hb; simpl in Hb; lia);
      rewrite ?Hst, ?Hcr, ?Hen, ?Hf, ?Hd, ?Hq.
    + repeat split; assumption.
    + assert (Hlen : length h2 = (length h + S (length rest))%nat).
      { rewrite Hh, !length_app, length_replicate. simpl. lia. }
      repeat split; try assumption.
      * constructor; [|exact Hall'].
        split; [reflexivity|]. exists (length h). simpl. split; [reflexivity|lia].
      * constructor; [|exact Hnd].
        intros Hin. apply list_elem_of_fmap in Hin as (m & Hm & Hin).
        rewrite Forall_forall in Hall.
        destruct (Hall m Hin) as (_ & l & Hl & Hb).
        simpl in Hm. rewrite Hl in Hm. injection Hm as Hm.
        rewrite length_app in Hb. simpl in Hb. lia.
    + repeat split; assumption.
Qed.

End Supervisor.

(** ** [main] from start to [wg.Wait()] *)

Section Main.
Context `{Crypto} `{Network}.

Lemma load_accounts_prints (lines : list string) (acc : gmap Z Z) :
  (load_accounts lines acc).2 = map SPrint (omap warning lines).
Proof.
  revert acc. induction lines as [|text lines IH]; intros acc; simpl.
  - reflexivity.
  - unfold warning at 1.
    destruct (HexToECDSA (TrimPrefix text "0x")) as [k|e].
    + apply IH.
    + specialize (IH acc). destruct (load_accounts lines acc) as [a o].
      simpl in *. rewrite IH. reflexivity.
Qed.

(** With a configuration and an account file, [main] loads the registry and
    runs the loop over the endpoints. *)
Lemma main_running (fs : Files) (config : Config) (lines : list string) :
  open_config fs = inl (inl config) ->
  open_accounts fs = inl lines ->
  let registry := (load_accounts lines ∅).1 in
  let loop :=
    start_monitors (elems (Endpoints config)) (Reciever config) registry [] in
  main fs =
    (Waiting loop.1.1,
     SPrint loading_accounts :: map SPrint (omap warning lines) ++
     SPrint (loaded_accounts (size registry)) :: SPrint parsing_endpoints ::
     loop.1.2,
     loop.2).
Proof.
  intros Hc Ha. unfold main. rewrite Hc, Ha.
  pose proof (load_accounts_prints lines ∅) as Hp.
  destruct (load_accounts lines ∅) as [accs o1]. simpl in *. subst o1.
  destruct (start_monitors _ _ _ _) as [[ms o2] h]. reflexivity.
Qed.

(** X16. With a configuration and an account file, [main] dials every
    configured endpoint once, in order, asks those that accept the
    connection for their chain identifier, and starts a monitor for exactly
    those that answer it, in order; an endpoint that fails stops neither
    [main] nor the endpoints after it. *)
Theorem main_starts_monitors (fs : Files) (config : Config) (lines : list string) :
  open_config fs = inl (inl config) ->
  open_accounts fs = inl lines ->
  let run := main fs in
  let endpoints := elems (Endpoints config) in
  exists ms,
    run.1.1 = Waiting ms /\
    started run.1.2 = ms /\
    map fst ms = List.filter connects endpoints /\
    dialled run.1.2 = endpoints /\
    queried run.1.2 = List.filter dials endpoints.
Proof.
  intros Hc Ha. simpl. rewrite (main_running fs config lines Hc Ha).
  destruct (start_monitors_spec (elems (Endpoints config)) (Reciever config)
              (load_accounts lines ∅).1 [])
    as (Hst & _ & _ & Hf & Hd & Hq & _).
  eexists. split; [reflexivity|]. cbn [fst snd].
  unfold started, dialled, queried in *. cbn [omap list_omap].
  rewrite !omap_app. cbn [omap list_omap].
  fold started dialled queried.
  rewrite started_prints, dialled_prints, queried_prints.
  repeat split; assumption.
Qed.

(** X17. Every monitor [main] starts works on the registry loaded from the
    account file, and its receiver pointer points to a cell of its own that
    holds the configured receiver address. *)
Theorem monitors_share_registry_and_receiver (fs : Files) (config : Config)
    (lines : list string) :
  open_config fs = inl (inl config) ->
  open_accounts fs = inl lines ->
  let run := main fs in
  Forall
    (fun m =>
       accounts m.2 = (load_accounts lines ∅).1 /\
       deref run.2 (reciever m.2) = Some (Reciever config))
    (started run.1.2) /\
  NoDup (map (fun m => reciever m.2) (started run.1.2)).
Proof.
  intros Hc Ha. simpl. rewrite (main_running fs config lines Hc Ha).
  destruct (start_monitors_spec (elems (Endpoints config)) (Reciever config)
              (load_accounts lines ∅).1 [])
    as (Hst & _ & _ & _ & _ & _ & Hh & Hall & Hnd).
  cbn [fst snd]. unfold started in *. cbn [omap list_omap].
  rewrite omap_app. cbn [omap list_omap]. fold started in *.
  rewrite started_prints. simpl app. rewrite Hst. split; [|exact Hnd].
  eapply Forall_impl; [exact Hall|].
  intros m (Hacc & l & Hl & Hb). split; [exact Hacc|].
  rewrite Hl. simpl deref. rewrite Hh in *. simpl in *.
  apply lookup_replicate_2. rewrite length_replicate in Hb. lia.
Qed.

(** X18. Whenever [main] ends in [log.Fatal], it has dialled no endpoint,
    queried no chain identifier and started no monitor: every start-up
    error is met before the first connection. *)
Theorem fatal_before_any_connection (fs : Files) (l : FatalLine) :
  (main fs).1.1 = Fatal l ->
  dialled (main fs).1.2 = [] /\
  queried (main fs).1.2 = [] /\
  started (main fs).1.2 = [].
Proof.
  destruct (open_config fs) as [[config|err]|[|err]] eqn:Hc.
  - destruct (open_accounts fs) as [lines|err] eqn:Ha.
    + rewrite (main_running fs config lines Hc Ha). discriminate.
    + unfold main. rewrite Hc, Ha. intros _. repeat split.
  - unfold main. rewrite Hc. intros _. repeat split.
  - unfold main. rewrite Hc. intros _.
    destruct (create_config fs); [repeat split|].
    destruct (encode_config fs); repeat split.
  - unfold main. rewrite Hc. intros _. repeat split.
Qed.

(** X19. [main] creates and writes [config.json] only when opening it
    failed because it does not exist: a configuration that is there, even
    one that cannot be read or decoded, is never overwritten. *)
Theorem existing_config_not_written (fs : Files) :
  open_config fs <> inr ErrNotExist ->
  created (main fs).1.2 = [] /\ encoded (main fs).1.2 = [].
Proof.
  intros Hne.
  destruct (open_config fs) as [[config|err]|[|err]] eqn:Hc.
  - destruct (open_accounts fs) as [lines|err] eqn:Ha.
    + rewrite (main_running fs config lines Hc Ha).
      destruct (start_monitors_spec (elems (Endpoints config)) (Reciever config)
                  (load_accounts lines ∅).1 [])
        as (_ & Hcr & Hen & _).
      cbn [fst snd]. unfold created, encoded in *. cbn [omap list_omap].
      rewrite !omap_app. cbn [omap list_omap]. fold created encoded in *.
      rewrite created_prints, encoded_prints, Hcr, Hen. split; reflexivity.
    + unfold main. rewrite Hc, Ha. split; reflexivity.
  - unfold main. rewrite Hc. split; reflexivity.
  - contradiction.
  - unfold main. rewrite Hc. split; reflexivity.
Qed.

End Main.

(** Four endpoints, of which one refuses the connection and one does not
    answer its chain identifier: the two others get their monitor. *)
Lemma main_starts_monitors_witness :
  let run := @main Scenario.crypto Outage.network Outage.files in
  exists ms,
    run.1.1 = Waiting ms /\
    started run.1.2 = ms /\
    map fst ms = ["ws://a"; "ws://b"]%string /\
    dialled run.1.2 = ["ws://a"; "ws://down"; "ws://mute"; "ws://b"]%string /\
    queried run.1.2 = ["ws://a"; "ws://mute"; "ws://b"]%string.
Proof.
  apply (@main_starts_monitors Scenario.crypto Outage.network Outage.files
           Outage.config Scenario.lines); reflexivity.
Defined.

Lemma monitors_share_registry_and_receiver_witness :
  let run := @main Scenario.crypto Outage.network Outage.files in
  Forall
    (fun m =>
       accounts m.2 = (@load_accounts Scenario.crypto Scenario.lines ∅).1 /\
       deref run.2 (reciever m.2) = Some Scenario.R)
    (started run.1.2) /\
  NoDup (map (fun m => reciever m.2) (started run.1.2)).
Proof.
  apply (@monitors_share_registry_and_receiver Scenario.crypto Outage.network
           Outage.files Outage.config Scenario.lines); reflexivity.
Defined.

Example outage_pointers :
  map (fun m => reciever m.2)
    (started (@main Scenario.crypto Outage.network Outage.files).1.2) =
  [Some 0%nat; Some 3%nat].
Proof. vm_compute. reflexivity. Qed.

Lemma fatal_before_any_connection_witness :
  let run := @main Scenario.crypto Scenario.network Scenario.no_config in
  dialled run.1.2 = [] /\ queried run.1.2 = [] /\ started run.1.2 = [].
Proof.
  apply (@fatal_before_any_connection Scenario.crypto Scenario.network
           Scenario.no_config empty_config_created).
  reflexivity.
Defined.

Lemma existing_config_not_written_witness :
  let run := @main Scenario.crypto Outage.network Outage.files in
  created run.1.2 = [] /\ encoded run.1.2 = [].
Proof.
  apply (@existing_config_not_written Scenario.crypto Outage.network Outage.files).
  discriminate.
Defined.

(** ** The line logged for a replacement *)

Section Outcome.
Context {Node : Type} `{EthNode Node}.
Implicit Types (c : Chain) (w : World Node) (tx : Transaction).

(** X20. Processing an accepted transaction logs exactly one line, which
    tells how the replacement ended and names the observed transaction's
    hash: the signing error when signing fails (and then nothing is
    broadcast), the node's error when the broadcast is refused, and
    [replaced] with the replacement's hash only when the node took it. *)
Theorem replacement_outcome_logged c w txHash tx from privateKey :
  accepted c w txHash tx from privateKey ->
  let run := process_hash c txHash w in
  let fetch := TransactionByHash (node w) txHash in
  logged (ops_of run) =
    [match SignNewTx (signer c) privateKey (heap (world_of run))
             (build_replacement c tx) with
     | inr err => couldnt_sign (tx_hash tx) err
     | inl signedTx =>
         match (SendTransaction fetch.2 signedTx).1 with
         | Some err => couldnt_send (tx_hash tx) err
         | None => replaced (tx_hash tx) (tx_hash signedTx)
         end
     end] /\
  (forall err,
     SignNewTx (signer c) privateKey (heap (world_of run))
       (build_replacement c tx) = inr err ->
     sent (ops_of run) = []).
Proof.
  intros (Hobs & [d Hto] & Hs & Ha & Hr). unfold observed in Hobs.
  destruct (TransactionByHash (node w) txHash) as [r1 n1] eqn:Hf.
  simpl in Hobs. subst r1.
  destruct (process_hash_controlled c w txHash tx n1 d from privateKey
              Hf Hto Hs Ha Hr) as (w' & Hh & Hrun).
  simpl. rewrite Hrun. unfold ops_of, world_of. simpl. rewrite Hh.
  destruct (SignNewTx (signer c) privateKey (heap w ++ [d; d])
              (build_replacement c tx)) as [signedTx|err]; simpl.
  - split; [reflexivity|]. intros err. discriminate.
  - split; reflexivity.
Qed.

End Outcome.

(** The replacement of [tx_poor], of negative value, is refused by the
    node. *)
Lemma replacement_outcome_logged_witness :
  logged (ops_of (process_hash Scenario.chain 4 Scenario.world)) =
  [couldnt_send 4 "negative value"].
Proof.
  destruct (replacement_outcome_logged Scenario.chain Scenario.world 4
              Scenario.tx_poor Scenario.X Scenario.kX poor_accepted) as [Hlog _].
  exact Hlog.
Defined.

(** ** The account file, as the scanner reads it *)









Section AccountFile.
Context `{Crypto}.
Implicit Types (lines : list string) (acc : gmap Z Z).






End AccountFile.



(** The same file with carriage returns and without a final newline is read
    the same way. *)
Example scanner_crlf :
  Scanner_lines
    (line_then (String.append "not-a-key" (String carriage_return EmptyString))
       Scenario.good_key) =
  ["not-a-key"%string; Scenario.good_key].
Proof. vm_compute. reflexivity. Qed.




(** ** The template written to [config.json] *)

Section TemplateFile.
Context `{Crypto} `{Network}.

(** C8, as amended.  When [config.json] does not exist, [main] ends in
    [log.Fatal] without dialling any endpoint, querying any chain identifier
    or starting any monitor; when the file can be created and written, the
    document written to [config.json] has the field [reciever] with the zero
    address in hexadecimal and the field [endpoints] with [null], the
    encoding of the [nil] slice. *)
Theorem missing_config_writes_null_template (fs : Files) :
  open_config fs = inr ErrNotExist ->
  let out := (main fs).1.1 in
  let ops := (main fs).1.2 in
  (exists l, out = Fatal l) /\
  dialled ops = [] /\
  queried ops = [] /\
  started ops = [] /\
  (create_config fs = None ->
   encode_config fs = None ->
   out = Fatal empty_config_created /\
   exists doc,
     encoded ops = [("config.json"%string, doc)] /\
     json_field "reciever" doc =
       Some (JString "0x0000000000000000000000000000000000000000") /\
     json_field "endpoints" doc = Some JNull).
Proof.
  intros Hopen. unfold main. rewrite Hopen.
  destruct (create_config fs) as [e1|]; simpl.
  - repeat split; try discriminate. eexists. reflexivity.
  - destruct (encode_config fs) as [e2|]; simpl.
    + repeat split; try discriminate. eexists. reflexivity.
    + split; [eexists; reflexivity|]. repeat split.
      eexists. repeat split.
Qed.

End TemplateFile.

Lemma missing_config_writes_null_template_witness :
  let run := @main Scenario.crypto Scenario.network Scenario.no_config in
  run.1.1 = Fatal empty_config_created /\
  dialled run.1.2 = [] /\
  started run.1.2 = [] /\
  exists doc,
    encoded run.1.2 = [("config.json"%string, doc)] /\
    json_field "reciever" doc =
      Some (JString "0x0000000000000000000000000000000000000000") /\
    json_field "endpoints" doc = Some JNull.
Proof.
  destruct (@missing_config_writes_null_template Scenario.crypto Scenario.network
              Scenario.no_config) as (_ & Hd & _ & Hs & Hw).
  - reflexivity.
  - destruct Hw as (Hout & Hdoc); [reflexivity|reflexivity|].
    repeat split; assumption.
Defined.

(** C8, as stated, fails: the [endpoints] field of the template written is
    [null], not an empty sequence. *)
Lemma template_endpoints_not_empty_sequence :
  let run := @main Scenario.crypto Scenario.network Scenario.no_config in
  exists doc,
    encoded run.1.2 = [("config.json"%string, doc)] /\
    json_field "endpoints" doc = Some JNull /\
    json_field "endpoints" doc <> Some (JArray []).
Proof.
  eexists. split; [reflexivity|]. split; [reflexivity|]. discriminate.
Qed.
